(** * tmenu: a terminal application launcher (script.py)

    A shallow embedding of [script.py] and of the parts of the Python
    standard library it relies on ([str] methods, [shlex.split],
    [configparser.ConfigParser.get], list indexing, [%]), followed by the
    properties of the launcher stated over that embedding.

    Conventions.
    - A Python [str] is a sequence of code points.  The model covers text
      whose code points lie below 256 and represents each code point by one
      [ascii]; [str.lower] and [str.isspace] are the restrictions of the
      Unicode tables to that range.
    - A Python [int] is a [Z]; [len] is [Z.of_nat (length _)].
    - A raised exception is a value [Raise e]; module-level mutable state
      ([filtered_apps], [focus_index], [rows], the text of [search_box]) is
      a record threaded through the handlers, and the calls into the
      terminal toolkit and into [subprocess] are logged as events. *)

From Stdlib Require Import ZArith Ascii String List Bool Lia.
From stdpp Require Import base option list strings gmap.
Import ListNotations.

Local Open Scope string_scope.
Local Open Scope list_scope.
Local Open Scope Z_scope.

(** ** Exceptions *)

Inductive Exn : Type :=
| IndexError (msg : string)
| ValueError (msg : string)
| ZeroDivisionError (msg : string)
| AttributeError (msg : string)
| OSError (msg : string)
| RuntimeError (msg : string).

(** [str(e)] *)
Definition exn_str (e : Exn) : string :=
  match e with
  | IndexError m | ValueError m | ZeroDivisionError m
  | AttributeError m | OSError m | RuntimeError m => m
  end.

Inductive Result (A : Type) : Type :=
| Ok (a : A)
| Raise (e : Exn).
Arguments Ok {A} a.
Arguments Raise {A} e.

Module Py.

(** *** Characters *)

Definition code (c : ascii) : N := N_of_ascii c.

(** [c.isspace()] for code points below 256. *)
Definition isspace (c : ascii) : bool :=
  let n := code c in
  ((9 <=? n) && (n <=? 13) || (28 <=? n) && (n <=? 32)
   || (n =? 133) || (n =? 160))%N.

(** [c.lower()] for code points below 256: A-Z and the Latin-1 capitals
    (U+00C0..U+00DE without the multiplication sign) move up by 32. *)
Definition lower_char (c : ascii) : ascii :=
  let n := code c in
  if ((65 <=? n) && (n <=? 90)
      || (192 <=? n) && (n <=? 222) && negb (n =? 215))%N
  then ascii_of_N (n + 32) else c.

(** *** Strings *)

(** [s.lower()], for code points below 256: there [str.lower] maps each
    character on its own (the rule that depends on the neighbours concerns
    the Greek capital sigma, outside this range). *)
Fixpoint str_lower (s : string) : string :=
  match s with
  | EmptyString => EmptyString
  | String c t => String (lower_char c) (str_lower t)
  end.

(** [s.lstrip()] *)
Fixpoint str_lstrip (s : string) : string :=
  match s with
  | EmptyString => EmptyString
  | String c t => if isspace c then str_lstrip t else s
  end.

(** [s.rstrip()] *)
Fixpoint str_rstrip (s : string) : string :=
  match s with
  | EmptyString => EmptyString
  | String c t =>
      match str_rstrip t with
      | EmptyString => if isspace c then EmptyString else String c EmptyString
      | t' => String c t'
      end
  end.

(** [s.strip()] *)
Definition str_strip (s : string) : string := str_rstrip (str_lstrip s).

(** [s.startswith(p)] *)
Fixpoint str_startswith (p s : string) : bool :=
  match p, s with
  | EmptyString, _ => true
  | String a p', String b s' => Ascii.eqb a b && str_startswith p' s'
  | String _ _, EmptyString => false
  end.

(** [needle in hay] *)
Fixpoint str_contains (needle hay : string) : bool :=
  str_startswith needle hay
  || match hay with
     | EmptyString => false
     | String _ t => str_contains needle t
     end.

(** [s.endswith(p)] *)
Fixpoint str_endswith (p s : string) : bool :=
  String.eqb p s
  || match s with
     | EmptyString => false
     | String _ t => str_endswith p t
     end.

(** Truth value of an optional string: [None] and the empty string are
    false. *)
Definition truthy (v : option string) : bool :=
  match v with
  | None => false
  | Some EmptyString => false
  | Some (String _ _) => true
  end.

(** *** Integers and lists *)

Definition len {A} (l : list A) : Z := Z.of_nat (length l).

(** [a % b]: the result has the sign of [b]. *)
Definition mod_ (a b : Z) : Result Z :=
  if b =? 0 then Raise (ZeroDivisionError "integer modulo by zero")
  else Ok (a mod b).

(** [l[i]]: negative indices count from the end. *)
Definition getitem {A} (l : list A) (i : Z) : Result A :=
  let j := if i <? 0 then i + len l else i in
  if (j <? 0) || (len l <=? j) then Raise (IndexError "list index out of range")
  else match nth_error l (Z.to_nat j) with
       | Some x => Ok x
       | None => Raise (IndexError "list index out of range")
       end.

End Py.

(** ** shlex.split

    [shlex.split(s)] builds [shlex(s, posix=True)], sets
    [whitespace_split = True] and [commenters = ''], and collects the tokens
    that [read_token] returns until it returns [None].  [punctuation_chars]
    is empty, so the lexer never enters state ['c'] and never pushes a
    character back. *)
Module Shlex.

(** The values [self.state] takes: [None], [' '], ['a'], a quote
    character, the escape character. *)
Inductive State : Type :=
| Eof
| Blank
| Word
| Quote (q : ascii)
| Escape.

Definition whitespace (c : ascii) : bool :=
  (c =? " ")%char || (c =? "009")%char || (c =? "013")%char || (c =? "010")%char.
Definition quotes (c : ascii) : bool :=
  (c =? "'")%char || (c =? "034")%char.
Definition escape (c : ascii) : bool := (c =? "\")%char.
(** [escapedquotes] holds the double quote only. *)
Definition escapedquotes (q : ascii) : bool := (q =? "034")%char.

Definition is_quote (s : State) : bool :=
  match s with Quote _ => true | _ => false end.

Definition app1 (token : string) (c : ascii) : string :=
  token +:+ String c EmptyString.

(** What one call of [read_token] leaves behind: the unread input, the
    lexer state, the local [quoted] and [self.token]. *)
Record Break : Type := mkBreak {
  rest : string;
  state : State;
  token : string;
  quoted : bool
}.

(** The [while True] loop of [read_token]; one iteration per character
    read, the end of the input being read as ['']. *)
Fixpoint read_loop (instream : string) (st : State) (tok : string)
         (quoted : bool) (escapedstate : State) : Result Break :=
  match instream with
  | EmptyString =>
      match st with
      | Eof => Ok (mkBreak EmptyString Eof EmptyString quoted)
      | Blank => Ok (mkBreak EmptyString Eof tok quoted)
      | Quote _ => Raise (ValueError "No closing quotation")
      | Escape => Raise (ValueError "No escaped character")
      | Word => Ok (mkBreak EmptyString Eof tok quoted)
      end
  | String nextchar more =>
      match st with
      | Eof => Ok (mkBreak more Eof EmptyString quoted)
      | Blank =>
          if whitespace nextchar then
            if negb (String.eqb tok EmptyString) || quoted
            then Ok (mkBreak more Blank tok quoted)
            else read_loop more Blank tok quoted escapedstate
          else if escape nextchar then
            read_loop more Escape tok quoted Word
          else if quotes nextchar then
            read_loop more (Quote nextchar) tok quoted escapedstate
          else
            (* wordchars, or any other character under whitespace_split *)
            read_loop more Word (String nextchar EmptyString) quoted escapedstate
      | Quote q =>
          if (nextchar =? q)%char then
            read_loop more Word tok true escapedstate
          else if escape nextchar && escapedquotes q then
            read_loop more Escape tok true (Quote q)
          else
            read_loop more (Quote q) (app1 tok nextchar) true escapedstate
      | Escape =>
          let tok1 :=
            if is_quote escapedstate
               && negb (nextchar =? "\")%char
               && negb (match escapedstate with
                        | Quote q => (nextchar =? q)%char
                        | _ => false
                        end)
            then app1 tok "\"%char else tok in
          read_loop more escapedstate (app1 tok1 nextchar) quoted escapedstate
      | Word =>
          if whitespace nextchar then
            if negb (String.eqb tok EmptyString) || quoted
            then Ok (mkBreak more Blank tok quoted)
            else read_loop more Blank tok quoted escapedstate
          else if quotes nextchar then
            read_loop more (Quote nextchar) tok quoted escapedstate
          else if escape nextchar then
            read_loop more Escape tok quoted Word
          else
            read_loop more Word (app1 tok nextchar) quoted escapedstate
      end
  end.

(** [read_token]: runs the loop from [self.token = ''], [quoted = False],
    [escapedstate = ' '], and returns [None] for an unquoted empty
    result. *)
Definition read_token (instream : string) (st : State)
  : Result (option string * string * State) :=
  match read_loop instream st EmptyString false Blank with
  | Raise e => Raise e
  | Ok b =>
      let result :=
        if negb (quoted b) && String.eqb (token b) EmptyString
        then None else Some (token b) in
      Ok (result, rest b, state b)
  end.

(** [list(lex)]: tokens are read until [read_token] returns [None].  The
    outer [None] is reserved for an exhausted iteration budget. *)
Fixpoint tokens (fuel : nat) (instream : string) (st : State)
  : option (Result (list string)) :=
  match fuel with
  | O => None
  | S fuel' =>
      match read_token instream st with
      | Raise e => Some (Raise e)
      | Ok (None, _, _) => Some (Ok [])
      | Ok (Some t, more, st') =>
          match tokens fuel' more st' with
          | None => None
          | Some (Raise e) => Some (Raise e)
          | Some (Ok ts) => Some (Ok (t :: ts))
          end
      end
  end.

(** Every token that is returned consumed at least one character, so one
    unit of budget per character and one for the final [None] suffice
    (see [tokens_fuel]). *)
Definition split (s : string) : Result (list string) :=
  match tokens (S (String.length s)) s Blank with
  | Some r => r
  | None => Ok []
  end.

End Shlex.

(** ** Helpers of script.py *)

(** [clean_exec_cmd]: the tokens of [exec_cmd] that do not start with a
    percent sign. *)
Definition clean_exec_cmd (exec_cmd : string) : Result (list string) :=
  match Shlex.split exec_cmd with
  | Raise e => Raise e
  | Ok args => Ok (List.filter (fun arg => negb (Py.str_startswith "%" arg)) args)
  end.


(** *** configparser

    A [ConfigParser] after [read]: its sections and its [DEFAULT] section,
    option names already passed through [optionxform] by the parser. *)
Module ConfigParser.

Record Config : Type := mkConfig {
  sections : gmap string (gmap string string);
  defaults : gmap string string
}.

Definition default_section : string := "DEFAULT".

Definition optionxform (name : string) : string := Py.str_lower name.

(** [get(section, option, fallback=...)] without interpolation: the
    fallback is returned when the section or the option is missing. *)
Definition get (cfg : Config) (section name : string)
           (fallback : option string) : option string :=
  let lookup (d : gmap string string) :=
    match d !! optionxform name with
    | Some value => Some value
    | None =>
        match defaults cfg !! optionxform name with
        | Some value => Some value
        | None => fallback
        end
    end in
  match sections cfg !! section with
  | Some sectiondict => lookup sectiondict
  | None =>
      if String.eqb section default_section then lookup ∅ else fallback
  end.

End ConfigParser.

(** *** The file system seen by [list_apps] *)

Inductive ReadOutcome : Type :=
| ReadRaises (e : Exn)
| ReadOk (cfg : ConfigParser.Config).

(** [listdir d] is [None] when [os.path.exists(d)] is false and the list
    returned by [os.listdir(d)] otherwise; [config_read p] is what
    [ConfigParser(interpolation=None).read(p)] does on a fresh parser. *)
Record FileSystem : Type := mkFS {
  expanduser : string -> string;
  listdir : string -> option (list string);
  config_read : string -> ReadOutcome
}.

(** [os.path.join(a, b)] *)
Definition path_join (a b : string) : string :=
  if Py.str_startswith "/" b then b
  else if String.eqb a EmptyString || Py.str_endswith "/" a then a +:+ b
  else a +:+ "/" +:+ b.

(** [v.lower()] on an optional string. *)
Definition opt_lower (v : option string) : Result string :=
  match v with
  | Some s => Ok (Py.str_lower s)
  | None => Raise (AttributeError "'NoneType' object has no attribute 'lower'")
  end.

(** The body of the [try] in [list_apps]: the pair to append, if any. *)
Definition try_entry (fs : FileSystem) (filepath : string)
  : Result (option (string * string)) :=
  match config_read fs filepath with
  | ReadRaises e => Raise e
  | ReadOk config =>
      let entry := ConfigParser.get config "Desktop Entry" "Name" None in
      let exec_cmd := ConfigParser.get config "Desktop Entry" "Exec" None in
      match opt_lower (ConfigParser.get config "Desktop Entry" "Terminal" (Some "false")) with
      | Raise e => Raise e
      | Ok terminal_s =>
          let terminal := String.eqb terminal_s "true" in
          match opt_lower (ConfigParser.get config "Desktop Entry" "NoDisplay" (Some "false")) with
          | Raise e => Raise e
          | Ok no_display_s =>
              let no_display := String.eqb no_display_s "true" in
              if Py.truthy entry && Py.truthy exec_cmd && negb no_display
              then match entry, exec_cmd with
                   | Some n, Some e => Ok (Some (n, e))
                   | _, _ => Ok None
                   end
              else Ok None
          end
      end
  end.

(** One iteration of [for filename in os.listdir(directory)]. *)
Definition scan_file (fs : FileSystem) (directory : string)
           (apps : list (string * string)) (filename : string)
  : list (string * string) :=
  if Py.str_endswith ".desktop" filename then
    let filepath := path_join directory filename in
    match try_entry fs filepath with
    | Ok (Some app) => apps ++ [app]
    | Ok None => apps
    | Raise _ => apps     (* except Exception: continue *)
    end
  else apps.

(** One iteration of [for directory in dirs]. *)
Definition scan_dir (fs : FileSystem) (apps : list (string * string))
           (directory : string) : list (string * string) :=
  match listdir fs directory with
  | Some filenames => fold_left (scan_file fs directory) filenames apps
  | None => apps
  end.

Definition dirs (fs : FileSystem) : list string :=
  [ "/usr/share/applications";
    expanduser fs "~/.local/share/applications" ].

Definition list_apps (fs : FileSystem) : list (string * string) :=
  fold_left (scan_dir fs) (dirs fs) [].

(** ** Application data and the terminal session *)

(** A window built by [build_rows]: the row of an application, with the
    index and the name its closure captured, or the placeholder row. *)
Inductive Row : Type :=
| AppRow (idx : Z) (appname : string)
| NoAppsRow.

(** Calls that leave the program. *)
Inductive Event : Type :=
| Popen (args : list string)
| MessageDialog (title text : string)
| LayoutFocusSearchBox
| Invalidate.

Record Session : Type := mkSession {
  all_app_names : list string;
  app_dict : gmap string string;
  search_text : string;
  filtered_apps : list string;
  focus_index : Z;
  rows : list Row;
  hsplit_children : list Row
}.

(** Handlers run in a state monad over the session that also records the
    events and may end in an exception; the state written before an
    exception stays written. *)
Definition M (A : Type) : Type := Session -> Result A * Session * list Event.

Definition ret {A} (a : A) : M A := fun s => (Ok a, s, []).

Definition bind {A B} (m : M A) (k : A -> M B) : M B :=
  fun s =>
    match m s with
    | (Ok a, s1, ev1) =>
        match k a s1 with
        | (r, s2, ev2) => (r, s2, ev1 ++ ev2)
        end
    | (Raise e, s1, ev1) => (Raise e, s1, ev1)
    end.

Notation "'let*' x ':=' m 'in' k" := (bind m (fun x => k))
  (at level 10, x name, m at level 100, k at level 200).
Notation "m ;; k" := (bind m (fun _ => k))
  (at level 100, k at level 200, right associativity).

Definition gets {A} (f : Session -> A) : M A := fun s => (Ok (f s), s, []).
Definition modify (f : Session -> Session) : M unit := fun s => (Ok tt, f s, []).
Definition emit (e : Event) : M unit := fun s => (Ok tt, s, [e]).
Definition lift {A} (r : Result A) : M A := fun s => (r, s, []).

(** [try: body except Exception as e: handler(e)] *)
Definition try_except {A} (body : M A) (handler : Exn -> M A) : M A :=
  fun s =>
    match body s with
    | (Ok a, s1, ev1) => (Ok a, s1, ev1)
    | (Raise e, s1, ev1) =>
        match handler e s1 with
        | (r, s2, ev2) => (r, s2, ev1 ++ ev2)
        end
    end.

Definition set_filtered_apps (l : list string) (s : Session) : Session :=
  mkSession (all_app_names s) (app_dict s) (search_text s) l
            (focus_index s) (rows s) (hsplit_children s).
Definition set_focus_index (i : Z) (s : Session) : Session :=
  mkSession (all_app_names s) (app_dict s) (search_text s) (filtered_apps s)
            i (rows s) (hsplit_children s).
Definition set_rows (r : list Row) (s : Session) : Session :=
  mkSession (all_app_names s) (app_dict s) (search_text s) (filtered_apps s)
            (focus_index s) r (hsplit_children s).
Definition set_hsplit_children (r : list Row) (s : Session) : Session :=
  mkSession (all_app_names s) (app_dict s) (search_text s) (filtered_apps s)
            (focus_index s) (rows s) r.
Definition set_search_text (t : string) (s : Session) : Session :=
  mkSession (all_app_names s) (app_dict s) t (filtered_apps s)
            (focus_index s) (rows s) (hsplit_children s).

(** What [message_dialog(...).run()] raises when it is called from a key
    handler: the dialog is an application of its own, and asyncio refuses
    to run it while the event loop of the launcher is running.  The text
    is asyncio's; no property depends on it. *)
Definition dialog_error : Exn :=
  RuntimeError "asyncio.run() cannot be called from a running event loop".

(** [show_error]: its only caller is the [except] clause of [launch], a key
    handler, so the dialog is never drawn and the call raises. *)
Definition show_error (msg : string) : M unit :=
  lift (Raise dialog_error).

(** [{name: cmd for name, cmd in apps}]: a later pair overwrites an
    earlier one with the same name. *)
Definition dict_of (apps : list (string * string)) : gmap string string :=
  fold_left (fun d app => <[ fst app := snd app ]> d) apps ∅.

(** Truth value of a list. *)
Definition nonempty {A} (l : list A) : bool :=
  match l with [] => false | _ :: _ => true end.

Definition set_focus (idx : Z) : M unit :=
  let* filtered := gets filtered_apps in
  if nonempty filtered
  then modify (set_focus_index (Z.min (Z.max idx 0) (Py.len filtered - 1)))
  else ret tt.

(** [enumerate(filtered_apps)] turned into rows, or the placeholder. *)
Fixpoint enumerate_rows (i : Z) (names : list string) : list Row :=
  match names with
  | [] => []
  | name :: more => AppRow i name :: enumerate_rows (i + 1) more
  end.

Definition build_rows : M (list Row) :=
  let* filtered := gets filtered_apps in
  let rows := enumerate_rows 0 filtered in
  if nonempty rows then ret rows else ret [NoAppsRow].

(** [is_selected] inside [get_fragments], read when the row is drawn. *)
Definition is_selected (s : Session) (r : Row) : bool :=
  match r with
  | AppRow idx _ => idx =? focus_index s
  | NoAppsRow => false
  end.

Definition rebuild_rows : M unit :=
  let* r := build_rows in
  modify (set_rows r) ;;
  modify (set_hsplit_children r).

Definition on_search_change : M unit :=
  let* box := gets search_text in
  let text := Py.str_lower (Py.str_strip box) in
  let* names := gets all_app_names in
  modify (set_filtered_apps
            (List.filter (fun a => Py.str_contains text (Py.str_lower a)) names)) ;;
  set_focus 0 ;;
  rebuild_rows ;;
  emit LayoutFocusSearchBox.

(** [search_box.text = value]: the buffer fires [on_text_changed], to which
    [on_search_change] is attached, when the text differs from the one it
    holds. *)
Definition assign_search_text (value : string) : M unit :=
  let* old := gets search_text in
  if String.eqb old value then ret tt
  else (modify (set_search_text value) ;; on_search_change).

Definition move_up : M unit :=
  let* filtered := gets filtered_apps in
  if nonempty filtered then
    let* focus := gets focus_index in
    let* idx := lift (Py.mod_ (focus - 1) (Py.len filtered)) in
    set_focus idx ;;
    rebuild_rows
  else ret tt.

Definition move_down : M unit :=
  let* filtered := gets filtered_apps in
  if nonempty filtered then
    let* focus := gets focus_index in
    let* idx := lift (Py.mod_ (focus + 1) (Py.len filtered)) in
    set_focus idx ;;
    rebuild_rows
  else ret tt.

Definition nl : string := String "010"%char EmptyString.

(** [subprocess.Popen(args, start_new_session=True)]: the call is recorded
    and the operating system, [spawn], either starts the process or makes
    the call raise. *)
Definition popen (spawn : list string -> option Exn) (args : list string) : M unit :=
  emit (Popen args) ;;
  match spawn args with
  | None => ret tt
  | Some e => lift (Raise e)
  end.

Definition launch (spawn : list string -> option Exn) : M unit :=
  let* filtered := gets filtered_apps in
  if nonempty filtered then
    let* focus := gets focus_index in
    let* name := lift (Py.getitem filtered focus) in
    let* d := gets app_dict in
    let cmd := d !! name in
    (if Py.truthy cmd then
       try_except
         (let* args := lift (match cmd with
                             | Some c => clean_exec_cmd c
                             | None => Ok []
                             end) in
          popen spawn args)
         (fun e => show_error ("Error launching " +:+ name +:+ ":" +:+ nl +:+ exn_str e))
     else ret tt) ;;
    assign_search_text EmptyString ;;
    let* names := gets all_app_names in
    modify (set_filtered_apps names) ;;
    set_focus 0 ;;
    rebuild_rows ;;
    emit LayoutFocusSearchBox ;;
    emit Invalidate
  else ret tt.

(** The module-level initialisation, from the result of [list_apps]. *)
Definition init (apps : list (string * string)) : Session :=
  let names := map fst apps in
  let s0 := mkSession names (dict_of apps) EmptyString names 0 [] [] in
  match build_rows s0 with
  | (Ok r, _, _) => set_hsplit_children r (set_rows r s0)
  | (Raise _, _, _) => s0
  end.

(** What the user can do to a running session. *)
Inductive Input : Type :=
| Typed (text : string)     (* the search box now holds [text] *)
| KeyUp
| KeyDown
| KeyEnter.

Definition handle (spawn : list string -> option Exn) (i : Input) : M unit :=
  match i with
  | Typed text => assign_search_text text
  | KeyUp => move_up
  | KeyDown => move_down
  | KeyEnter => launch spawn
  end.

(** ** Vocabulary of the properties *)

Definition result_of {A} (o : Result A * Session * list Event) : Result A := fst (fst o).
Definition state_of {A} (o : Result A * Session * list Event) : Session := snd (fst o).
Definition events_of {A} (o : Result A * Session * list Event) : list Event := snd o.

(** The argument vectors handed to [subprocess.Popen], in order. *)
Fixpoint spawned (evs : list Event) : list (list string) :=
  match evs with
  | [] => []
  | Popen args :: more => args :: spawned more
  | _ :: more => spawned more
  end.

(** The texts of the error dialogs shown, in order. *)
Fixpoint shown_errors (evs : list Event) : list string :=
  match evs with
  | [] => []
  | MessageDialog _ text :: more => text :: shown_errors more
  | _ :: more => shown_errors more
  end.

(** [q] occurs in [s] as a contiguous block. *)
Definition substring (q s : string) : Prop :=
  exists pre post, s = pre +:+ q +:+ post.

(** [t] begins with the percent sign. *)
Definition field_code (t : string) : Prop :=
  exists more, t = String "%"%char more.

(** The focus index designates a row whenever there is one. *)
Definition focus_in_range (s : Session) : Prop :=
  filtered_apps s <> [] ->
  0 <= focus_index s < Py.len (filtered_apps s).

(** The rows held by the layout are those of the visible names. *)
Definition rows_for (names : list string) : list Row :=
  match names with
  | [] => [NoAppsRow]
  | _ :: _ => enumerate_rows 0 names
  end.

Definition rows_in_sync (s : Session) : Prop :=
  rows s = rows_for (filtered_apps s) /\ hsplit_children s = rows s.

(** The visible names are drawn, in order, from the index. *)
Definition visible_from_index (s : Session) : Prop :=
  sublist (filtered_apps s) (all_app_names s).

(** [m] run [n] times in a row. *)
Fixpoint times (n : nat) (m : M unit) : M unit :=
  match n with
  | O => ret tt
  | S n' => m ;; times n' m
  end.

(** Sessions that a run of the program can be in: the initial one and
    those obtained by handling inputs that raise nothing. *)
Inductive reachable (spawn : list string -> option Exn)
          (apps : list (string * string)) : Session -> Prop :=
| reachable_init : reachable spawn apps (init apps)
| reachable_handle s i :
    reachable spawn apps s ->
    result_of (handle spawn i s) = Ok tt ->
    reachable spawn apps (state_of (handle spawn i s)).

(** A descriptor qualifies with name [n] and command [e]: both keys are
    found with non-empty values and [NoDisplay] does not read as true. *)
Definition qualifies (cfg : ConfigParser.Config) (n e : string) : Prop :=
  ConfigParser.get cfg "Desktop Entry" "Name" None = Some n /\ n <> EmptyString /\
  ConfigParser.get cfg "Desktop Entry" "Exec" None = Some e /\ e <> EmptyString /\
  Py.str_lower (default "false" (ConfigParser.get cfg "Desktop Entry" "NoDisplay" None))
    <> "true".

(** A process-spawn primitive that behaves like CPython's on an empty
    argument vector and starts everything else. *)
Definition cpython_spawn (args : list string) : option Exn :=
  match args with
  | [] => Some (IndexError "list index out of range")
  | _ :: _ => None
  end.

(** *** The handlers as state transformers

    What each handler leaves in the session, written without the monad;
    the [_run] lemmas below relate them to the handlers. *)

Definition focus_set (idx : Z) (s : Session) : Session :=
  if nonempty (filtered_apps s)
  then set_focus_index (Z.min (Z.max idx 0) (Py.len (filtered_apps s) - 1)) s
  else s.

Definition rows_rebuilt (s : Session) : Session :=
  set_hsplit_children (rows_for (filtered_apps s))
    (set_rows (rows_for (filtered_apps s)) s).

Definition matches (box : string) (a : string) : bool :=
  Py.str_contains (Py.str_lower (Py.str_strip box)) (Py.str_lower a).

Definition refiltered (s : Session) : Session :=
  rows_rebuilt
    (focus_set 0
       (set_filtered_apps (List.filter (matches (search_text s)) (all_app_names s)) s)).

Definition text_assigned (value : string) (s : Session) : Session :=
  if String.eqb (search_text s) value then s
  else refiltered (set_search_text value s).

Definition text_assigned_events (value : string) (s : Session) : list Event :=
  if String.eqb (search_text s) value then [] else [LayoutFocusSearchBox].

Definition moved (delta : Z) (s : Session) : Session :=
  rows_rebuilt
    (focus_set ((focus_index s + delta) mod Py.len (filtered_apps s)) s).

Definition launch_reset (s : Session) : Session :=
  let s1 := text_assigned EmptyString s in
  rows_rebuilt (focus_set 0 (set_filtered_apps (all_app_names s1) s1)).

(** The events of the guarded [try] of [launch]. *)
Definition attempt_events (cmd : option string) : list Event :=
  match cmd with
  | Some (String c0 c) =>
      match clean_exec_cmd (String c0 c) with
      | Raise e => []
      | Ok args => [Popen args]
      end
  | _ => []
  end.

(** How the guarded [try] of [launch] ends: normally, or with the
    exception of the dialog when the lexer or the spawn call raised. *)
Definition attempt_result (spawn : list string -> option Exn)
           (cmd : option string) : Result unit :=
  match cmd with
  | Some (String c0 c) =>
      match clean_exec_cmd (String c0 c) with
      | Raise e => Raise dialog_error
      | Ok args =>
          match spawn args with
          | None => Ok tt
          | Some e => Raise dialog_error
          end
      end
  | _ => Ok tt
  end.

(** *** Sample data *)

Definition sample_apps : list (string * string) :=
  [("Firefox", "firefox %u"); ("VLC", "vlc"); ("Editor", "%U")].

Definition sample : Session := init sample_apps.

(** The sample session after a query that matches nothing. *)
Definition sample_no_match : Session :=
  state_of (handle cpython_spawn (Typed "zzz") sample).

(** The sample session with the focus on its last row. *)
Definition sample_last : Session :=
  state_of (handle cpython_spawn KeyUp sample).

(** The sample session narrowed to the entry whose command is a lone
    field code. *)
Definition sample_editor : Session :=
  state_of (handle cpython_spawn (Typed "edit") sample).

(** A session whose visible name has no command in the mapping. *)
Definition ghost : Session :=
  mkSession ["Ghost"] ∅ EmptyString ["Ghost"] 0
            (rows_for ["Ghost"]) (rows_for ["Ghost"]).

(** The sample session with a single blank typed into the search box,
    before [on_search_change] has run. *)
Definition sample_blank_query : Session := set_search_text " " sample.

(** The descriptors of the specification's scenario, in one directory:
    Firefox, a Calculator that asks not to be displayed, an Editor whose
    [Exec] is present and empty, and a file that is not a descriptor. *)
Definition desktop_entry (kv : gmap string string) : ConfigParser.Config :=
  ConfigParser.mkConfig {[ "Desktop Entry" := kv ]} ∅.

Definition firefox_cfg : ConfigParser.Config :=
  desktop_entry {[ "name" := "Firefox"; "exec" := "firefox %u" ]}.
Definition calculator_cfg : ConfigParser.Config :=
  desktop_entry {[ "name" := "Calculator"; "exec" := "gnome-calculator";
                   "nodisplay" := "True" ]}.
Definition editor_cfg : ConfigParser.Config :=
  desktop_entry {[ "name" := "Editor"; "exec" := EmptyString ]}.

Definition scenario_fs : FileSystem :=
  mkFS
    (fun p => match p with
              | String "~" more => "/home/user" +:+ more
              | _ => p
              end)
    (fun d => if String.eqb d "/usr/share/applications"
              then Some ["firefox.desktop"; "calc.desktop"; "editor.desktop";
                         "notes.txt"]
              else None)
    (fun p => if String.eqb p "/usr/share/applications/firefox.desktop"
              then ReadOk firefox_cfg
              else if String.eqb p "/usr/share/applications/calc.desktop"
              then ReadOk calculator_cfg
              else if String.eqb p "/usr/share/applications/editor.desktop"
              then ReadOk editor_cfg
              else ReadOk (ConfigParser.mkConfig ∅ ∅)).

(** *** Vocabulary of the further properties *)

(** What one file of a directory adds to the index: at most one pair. *)
Definition file_entries (fs : FileSystem) (directory filename : string)
  : list (string * string) :=
  if Py.str_endswith ".desktop" filename then
    match try_entry fs (path_join directory filename) with
    | Ok (Some app) => [app]
    | _ => []
    end
  else [].

(** What one directory adds to the index. *)
Definition dir_entries (fs : FileSystem) (directory : string)
  : list (string * string) :=
  match listdir fs directory with
  | Some filenames => flat_map (file_entries fs directory) filenames
  | None => []
  end.

(** The parsed descriptor [cfg] with option [key] of [section] set to
    [value], as if the file had that line. *)
Definition with_option (section key value : string) (cfg : ConfigParser.Config)
  : ConfigParser.Config :=
  ConfigParser.mkConfig
    (<[ section := <[ key := value ]> (default ∅ (ConfigParser.sections cfg !! section)) ]>
       (ConfigParser.sections cfg))
    (ConfigParser.defaults cfg).

(** The session the program starts in on the scenario's descriptors. *)
Definition scenario : Session := init (list_apps scenario_fs).

(** The two errors the lexer can raise. *)
Definition lexer_error (e : Exn) : Prop :=
  e = ValueError "No closing quotation" \/ e = ValueError "No escaped character".

(** Every character of [s] satisfies [p]. *)
Fixpoint str_all (p : ascii -> bool) (s : string) : bool :=
  match s with
  | EmptyString => true
  | String c t => p c && str_all p t
  end.

(** A command that holds no quote character and no backslash. *)
Definition plain (s : string) : bool :=
  str_all (fun c => negb (Shlex.quotes c) && negb (Shlex.escape c)) s.

(** Cutting a text at its runs of blanks, tabs, carriage returns and line
    feeds; [cur] is the word read so far. *)
Fixpoint words_from (cur s : string) : list string :=
  match s with
  | EmptyString =>
      match cur with
      | EmptyString => []
      | String _ _ => [cur]
      end
  | String c t =>
      if Shlex.whitespace c then
        match cur with
        | EmptyString => words_from EmptyString t
        | String _ _ => cur :: words_from EmptyString t
        end
      else words_from (Shlex.app1 cur c) t
  end.

Definition blank_separated (s : string) : list string :=
  words_from EmptyString s.

(** ** Properties of the Python primitives *)

Section StringFacts.

Lemma append_nil_l (s : string) : EmptyString +:+ s = s.
Proof. reflexivity. Qed.

Lemma append_cons (c : ascii) (s t : string) :
  String c s +:+ t = String c (s +:+ t).
Proof. reflexivity. Qed.

Lemma append_empty_r (s : string) : s +:+ EmptyString = s.
Proof.
  induction s as [|c s IH]; [reflexivity|].
  rewrite append_cons. f_equal. exact IH.
Qed.

Lemma append_assoc (a b c : string) : (a +:+ b) +:+ c = a +:+ (b +:+ c).
Proof.
  induction a as [|x a IH]; [reflexivity|].
  rewrite !append_cons. f_equal. exact IH.
Qed.

Lemma str_startswith_spec (p s : string) :
  Py.str_startswith p s = true <-> exists post, s = p +:+ post.
Proof.
  revert s; induction p as [|a p IH]; intros s; simpl.
  - split; [intros _; now exists s | reflexivity].
  - destruct s as [|b s].
    + split; [discriminate | intros [post H]; discriminate].
    + rewrite andb_true_iff, Ascii.eqb_eq, IH. split.
      * intros [-> [post ->]]. now exists post.
      * intros [post H]. rewrite append_cons in H. injection H as -> ->.
        split; [reflexivity | now exists post].
Qed.

Lemma str_contains_spec (q s : string) :
  Py.str_contains q s = true <-> substring q s.
Proof.
  unfold substring. induction s as [|c s IH].
  - simpl. rewrite orb_false_r, str_startswith_spec. split.
    + intros [post H]. now exists EmptyString, post.
    + intros [pre [post H]]. destruct pre; [now exists post | discriminate].
  - cbn [Py.str_contains]. rewrite orb_true_iff, IH, str_startswith_spec. split.
    + intros [[post H] | [pre [post H]]].
      * now exists EmptyString, post.
      * exists (String c pre), post. rewrite append_cons. now rewrite H.
    + intros [pre [post H]]. destruct pre as [|x pre].
      * left. now exists post.
      * right. rewrite append_cons in H. injection H as _ ->. now exists pre, post.
Qed.

Lemma str_contains_empty (s : string) : Py.str_contains EmptyString s = true.
Proof. destruct s; reflexivity. Qed.

Lemma field_code_spec (t : string) :
  Py.str_startswith "%" t = true <-> field_code t.
Proof.
  unfold field_code. rewrite str_startswith_spec.
  split; intros [x H]; now exists x.
Qed.

Lemma truthy_spec (v : option string) :
  Py.truthy v = true <-> exists s, v = Some s /\ s <> EmptyString.
Proof.
  destruct v as [[|c s]|]; simpl; split; try discriminate.
  - intros [s [H Hne]]. injection H as <-. contradiction.
  - intros _. now exists (String c s).
  - reflexivity.
  - intros [s [H _]]. discriminate.
Qed.

End StringFacts.

(** ** The lexer terminates within its budget *)

Section ShlexFacts.

Import Shlex.

Lemma read_loop_rest instream : forall st tok q es b,
  read_loop instream st tok q es = Ok b ->
  (String.length (rest b) <= String.length instream)%nat.
Proof.
  induction instream as [|c more IH]; intros st tok q es b H.
  - destruct st; simpl in H; try discriminate; injection H as <-; simpl; lia.
  - simpl in H.
    destruct st;
      repeat match type of H with
             | context [if ?c then _ else _] => destruct c
             end;
      try (injection H as <-; simpl; lia);
      try (apply IH in H; simpl; lia).
Qed.

Lemma read_loop_eof st es b :
  read_loop EmptyString st EmptyString false es = Ok b ->
  quoted b = false /\ token b = EmptyString.
Proof.
  destruct st; simpl; intros H; try discriminate; injection H as <-; now split.
Qed.

Lemma read_token_consumes instream st t more st' :
  read_token instream st = Ok (Some t, more, st') ->
  (String.length more < String.length instream)%nat.
Proof.
  unfold read_token. intros H.
  destruct (read_loop instream st EmptyString false Blank) as [b|e] eqn:E;
    [|discriminate].
  destruct instream as [|c rest0].
  - apply read_loop_eof in E as [Hq Ht]. rewrite Hq, Ht in H. discriminate.
  - assert (Hr : (String.length (rest b) <= String.length rest0)%nat).
    { simpl in E.
      destruct st;
        repeat match type of E with
               | context [if ?c then _ else _] => destruct c
               end;
        try (injection E as <-; simpl; lia);
        try (apply read_loop_rest in E; lia). }
    destruct (negb (quoted b) && String.eqb (token b) EmptyString);
      [discriminate|]. injection H as _ <- _. simpl. lia.
Qed.

Lemma tokens_fuel fuel : forall instream st,
  (String.length instream < fuel)%nat ->
  tokens fuel instream st <> None.
Proof.
  induction fuel as [|fuel IH]; intros instream st Hlen; [lia|].
  simpl. destruct (read_token instream st) as [[[[t|] more] st']|e] eqn:E;
    try discriminate.
  apply read_token_consumes in E.
  specialize (IH more st' ltac:(lia)).
  destruct (tokens fuel more st') as [[ts|e]|]; congruence.
Qed.

(** [split] is the token list of the lexer, never the budget's default. *)
Lemma split_tokens s :
  tokens (S (String.length s)) s Blank = Some (split s).
Proof.
  unfold split.
  destruct (tokens (S (String.length s)) s Blank) eqn:E; [reflexivity|].
  exfalso. revert E. apply tokens_fuel. lia.
Qed.

End ShlexFacts.

Section ListFacts.

Context {A : Type}.

Lemma filter_sublist_bool (f : A -> bool) (l : list A) :
  sublist (List.filter f l) l.
Proof.
  induction l as [|x l IH]; simpl; [constructor|].
  destruct (f x); now constructor.
Qed.

Lemma filter_all_true (f : A -> bool) (l : list A) :
  (forall x, f x = true) -> List.filter f l = l.
Proof.
  intros H. induction l as [|x l IH]; simpl; [reflexivity|].
  now rewrite H, IH.
Qed.

Lemma nonempty_spec (l : list A) : nonempty l = true <-> l <> [].
Proof. destruct l; simpl; split; congruence. Qed.

End ListFacts.

(** ** The handlers, run *)

Section HandlerRuns.

Variable spawn : list string -> option Exn.

Lemma set_focus_run idx s : set_focus idx s = (Ok tt, focus_set idx s, []).
Proof.
  unfold set_focus, focus_set, bind, gets, modify, ret. simpl.
  destruct (nonempty (filtered_apps s)); reflexivity.
Qed.

Lemma build_rows_run s : build_rows s = (Ok (rows_for (filtered_apps s)), s, []).
Proof.
  unfold build_rows, bind, gets, ret. simpl.
  destruct (filtered_apps s); reflexivity.
Qed.

Lemma rebuild_rows_run s : rebuild_rows s = (Ok tt, rows_rebuilt s, []).
Proof.
  unfold rebuild_rows, bind. rewrite build_rows_run. reflexivity.
Qed.

Lemma on_search_change_run s :
  on_search_change s = (Ok tt, refiltered s, [LayoutFocusSearchBox]).
Proof.
  unfold on_search_change, bind at 1. cbn [gets].
  unfold bind at 1. cbn [gets].
  unfold bind at 1. cbn [modify].
  unfold bind at 1. rewrite set_focus_run.
  unfold bind at 1. rewrite rebuild_rows_run.
  reflexivity.
Qed.

Lemma assign_search_text_run value s :
  assign_search_text value s
  = (Ok tt, text_assigned value s, text_assigned_events value s).
Proof.
  unfold assign_search_text, text_assigned, text_assigned_events, bind at 1.
  cbn [gets].
  destruct (String.eqb (search_text s) value); [reflexivity|].
  unfold bind. cbn [modify]. rewrite on_search_change_run. reflexivity.
Qed.

Lemma len_nonempty {A} (l : list A) : l <> [] -> 0 < Py.len l.
Proof. destruct l; [congruence|]. intros _. unfold Py.len. simpl. lia. Qed.

Lemma mod_run a (l : list string) :
  l <> [] -> Py.mod_ a (Py.len l) = Ok (a mod Py.len l).
Proof.
  intros H. apply len_nonempty in H. unfold Py.mod_.
  destruct (Z.eqb_spec (Py.len l) 0); [lia | reflexivity].
Qed.

Lemma move_empty (m : M unit) s :
  (m = move_up \/ m = move_down) ->
  filtered_apps s = [] -> m s = (Ok tt, s, []).
Proof.
  intros [-> | ->] H; unfold move_up, move_down, bind; cbn [gets];
    rewrite H; reflexivity.
Qed.

Lemma move_down_run s :
  filtered_apps s <> [] -> move_down s = (Ok tt, moved 1 s, []).
Proof.
  intros H. unfold move_down, bind at 1. cbn [gets].
  apply nonempty_spec in H as Hne. rewrite Hne.
  unfold bind at 1. cbn [gets].
  unfold bind at 1. unfold lift. rewrite (mod_run _ _ H).
  unfold bind. rewrite set_focus_run, rebuild_rows_run. reflexivity.
Qed.

Lemma move_up_run s :
  filtered_apps s <> [] -> move_up s = (Ok tt, moved (-1) s, []).
Proof.
  intros H. unfold move_up, bind at 1. cbn [gets].
  apply nonempty_spec in H as Hne. rewrite Hne.
  unfold bind at 1. cbn [gets].
  unfold bind at 1. unfold lift. rewrite (mod_run _ _ H).
  unfold bind. rewrite set_focus_run, rebuild_rows_run. reflexivity.
Qed.

Lemma launch_empty s : filtered_apps s = [] -> launch spawn s = (Ok tt, s, []).
Proof.
  intros H. unfold launch, bind. cbn [gets]. rewrite H. reflexivity.
Qed.

(** The guarded [try] leaves the session alone. *)
Lemma attempt_run name cmd s :
  (if Py.truthy cmd then
     try_except
       (let* args := lift (match cmd with
                           | Some c => clean_exec_cmd c
                           | None => Ok []
                           end) in
        popen spawn args)
       (fun e => show_error ("Error launching " +:+ name +:+ ":" +:+ nl +:+ exn_str e))
   else ret tt) s
  = (attempt_result spawn cmd, s, attempt_events cmd).
Proof.
  destruct cmd as [[|c0 c]|]; try reflexivity.
  cbn [Py.truthy attempt_events attempt_result].
  unfold try_except, bind at 1, lift.
  destruct (clean_exec_cmd (String c0 c)) as [args|e]; [|reflexivity].
  unfold popen, bind, emit, show_error, emit, lift, ret.
  destruct (spawn args); reflexivity.
Qed.

Lemma attempt_result_cases cmd :
  attempt_result spawn cmd = Ok tt \/ attempt_result spawn cmd = Raise dialog_error.
Proof.
  unfold attempt_result. destruct cmd as [[|c0 c]|]; auto.
  destruct (clean_exec_cmd (String c0 c)) as [args|e]; auto.
  destruct (spawn args); auto.
Qed.

(** A launch whose [try] ends normally goes on to the reset. *)
Lemma launch_run s name :
  filtered_apps s <> [] ->
  Py.getitem (filtered_apps s) (focus_index s) = Ok name ->
  attempt_result spawn (app_dict s !! name) = Ok tt ->
  launch spawn s
  = (Ok tt, launch_reset s,
     attempt_events (app_dict s !! name)
     ++ text_assigned_events EmptyString s
     ++ [LayoutFocusSearchBox; Invalidate]).
Proof.
  intros H Hname Hok. unfold launch, bind at 1. cbn [gets].
  apply nonempty_spec in H as Hne. rewrite Hne.
  unfold bind at 1. cbn [gets].
  unfold bind at 1. unfold lift at 1. rewrite Hname.
  unfold bind at 1. cbn [gets].
  unfold bind at 1. rewrite attempt_run, Hok.
  unfold bind at 1. rewrite assign_search_text_run.
  unfold bind at 1. cbn [gets].
  unfold bind at 1. cbn [modify].
  unfold bind at 1. rewrite set_focus_run.
  unfold bind at 1. rewrite rebuild_rows_run.
  unfold bind, emit. unfold launch_reset.
  rewrite ?app_nil_l, ?app_nil_r. reflexivity.
Qed.

(** A launch whose [try] ends in the exception of the dialog stops there:
    the session is the one it started from and the reset is not run. *)
Lemma launch_stops s name e :
  filtered_apps s <> [] ->
  Py.getitem (filtered_apps s) (focus_index s) = Ok name ->
  attempt_result spawn (app_dict s !! name) = Raise e ->
  launch spawn s = (Raise e, s, attempt_events (app_dict s !! name)).
Proof.
  intros H Hname Hr. unfold launch, bind at 1. cbn [gets].
  apply nonempty_spec in H as Hne. rewrite Hne.
  unfold bind at 1. cbn [gets].
  unfold bind at 1. unfold lift at 1. rewrite Hname.
  unfold bind at 1. cbn [gets].
  unfold bind at 1. rewrite attempt_run, Hr.
  rewrite ?app_nil_l, ?app_nil_r. reflexivity.
Qed.

Lemma launch_raises s e :
  filtered_apps s <> [] ->
  Py.getitem (filtered_apps s) (focus_index s) = Raise e ->
  launch spawn s = (Raise e, s, []).
Proof.
  intros H Hname. unfold launch, bind at 1. cbn [gets].
  apply nonempty_spec in H as Hne. rewrite Hne.
  unfold bind at 1. cbn [gets].
  unfold bind at 1. unfold lift at 1. rewrite Hname. reflexivity.
Qed.

End HandlerRuns.

(** ** Facts about the state transformers *)

Section TransformerFacts.

Lemma focus_set_filtered idx s :
  filtered_apps (focus_set idx s) = filtered_apps s.
Proof. unfold focus_set. destruct (nonempty (filtered_apps s)); reflexivity. Qed.

Lemma focus_set_names idx s :
  all_app_names (focus_set idx s) = all_app_names s.
Proof. unfold focus_set. destruct (nonempty (filtered_apps s)); reflexivity. Qed.

Lemma focus_set_text idx s :
  search_text (focus_set idx s) = search_text s.
Proof. unfold focus_set. destruct (nonempty (filtered_apps s)); reflexivity. Qed.

Lemma focus_set_dict idx s : app_dict (focus_set idx s) = app_dict s.
Proof. unfold focus_set. destruct (nonempty (filtered_apps s)); reflexivity. Qed.

Lemma focus_set_index idx s :
  filtered_apps s <> [] ->
  focus_index (focus_set idx s)
  = Z.min (Z.max idx 0) (Py.len (filtered_apps s) - 1).
Proof.
  intros H. unfold focus_set. apply nonempty_spec in H. now rewrite H.
Qed.

Lemma focus_set_in_range idx s : focus_in_range (focus_set idx s).
Proof.
  unfold focus_in_range. rewrite focus_set_filtered. intros H.
  rewrite (focus_set_index _ _ H). apply len_nonempty in H. lia.
Qed.

Lemma rows_rebuilt_in_range s :
  focus_in_range s -> focus_in_range (rows_rebuilt s).
Proof. exact (fun H => H). Qed.

Lemma rows_rebuilt_in_sync s : rows_in_sync (rows_rebuilt s).
Proof. split; reflexivity. Qed.

Lemma refiltered_filtered s :
  filtered_apps (refiltered s)
  = List.filter (matches (search_text s)) (all_app_names s).
Proof. unfold refiltered. cbn [rows_rebuilt set_hsplit_children set_rows filtered_apps].
  now rewrite focus_set_filtered. Qed.

Lemma refiltered_names s : all_app_names (refiltered s) = all_app_names s.
Proof. unfold refiltered. cbn [rows_rebuilt set_hsplit_children set_rows all_app_names].
  now rewrite focus_set_names. Qed.

Lemma refiltered_text s : search_text (refiltered s) = search_text s.
Proof. unfold refiltered. cbn [rows_rebuilt set_hsplit_children set_rows search_text].
  now rewrite focus_set_text. Qed.

Lemma refiltered_dict s : app_dict (refiltered s) = app_dict s.
Proof. unfold refiltered. cbn [rows_rebuilt set_hsplit_children set_rows app_dict].
  now rewrite focus_set_dict. Qed.

Lemma refiltered_in_range s : focus_in_range (refiltered s).
Proof. unfold refiltered. apply rows_rebuilt_in_range, focus_set_in_range. Qed.

Lemma refiltered_visible s : visible_from_index (refiltered s).
Proof.
  unfold visible_from_index. rewrite refiltered_filtered, refiltered_names.
  apply filter_sublist_bool.
Qed.

Lemma text_assigned_names v s :
  all_app_names (text_assigned v s) = all_app_names s.
Proof.
  unfold text_assigned. destruct (String.eqb (search_text s) v); [reflexivity|].
  now rewrite refiltered_names.
Qed.

Lemma text_assigned_dict v s : app_dict (text_assigned v s) = app_dict s.
Proof.
  unfold text_assigned. destruct (String.eqb (search_text s) v); [reflexivity|].
  now rewrite refiltered_dict.
Qed.

Lemma text_assigned_text v s : search_text (text_assigned v s) = v.
Proof.
  unfold text_assigned. destruct (String.eqb_spec (search_text s) v) as [E|E];
    [exact E|]. now rewrite refiltered_text.
Qed.

Lemma text_assigned_in_range v s :
  focus_in_range s -> focus_in_range (text_assigned v s).
Proof.
  intros H. unfold text_assigned. destruct (String.eqb (search_text s) v);
    [exact H | apply refiltered_in_range].
Qed.

Lemma text_assigned_in_sync v s :
  rows_in_sync s -> rows_in_sync (text_assigned v s).
Proof.
  intros H. unfold text_assigned. destruct (String.eqb (search_text s) v);
    [exact H | apply rows_rebuilt_in_sync].
Qed.

Lemma text_assigned_visible v s :
  visible_from_index s -> visible_from_index (text_assigned v s).
Proof.
  intros H. unfold text_assigned. destruct (String.eqb (search_text s) v);
    [exact H | apply refiltered_visible].
Qed.

Lemma moved_filtered d s : filtered_apps (moved d s) = filtered_apps s.
Proof. unfold moved. cbn [rows_rebuilt set_hsplit_children set_rows filtered_apps].
  now rewrite focus_set_filtered. Qed.

Lemma moved_names d s : all_app_names (moved d s) = all_app_names s.
Proof. unfold moved. cbn [rows_rebuilt set_hsplit_children set_rows all_app_names].
  now rewrite focus_set_names. Qed.

Lemma moved_dict d s : app_dict (moved d s) = app_dict s.
Proof. unfold moved. cbn [rows_rebuilt set_hsplit_children set_rows app_dict].
  now rewrite focus_set_dict. Qed.

(** A move lands on [(index + delta) mod N]: the clamp of [set_focus]
    leaves a residue alone. *)
Lemma moved_index d s :
  filtered_apps s <> [] ->
  focus_index (moved d s) = (focus_index s + d) mod Py.len (filtered_apps s).
Proof.
  intros H. unfold moved.
  cbn [rows_rebuilt set_hsplit_children set_rows focus_index].
  rewrite (focus_set_index _ _ H). apply len_nonempty in H.
  pose proof (Z.mod_pos_bound (focus_index s + d) (Py.len (filtered_apps s)) H).
  lia.
Qed.

Lemma moved_in_range d s : focus_in_range (moved d s).
Proof. unfold moved. apply rows_rebuilt_in_range, focus_set_in_range. Qed.

Lemma launch_reset_names s : all_app_names (launch_reset s) = all_app_names s.
Proof.
  unfold launch_reset. cbn [rows_rebuilt set_hsplit_children set_rows all_app_names].
  rewrite focus_set_names. cbn [set_filtered_apps all_app_names].
  apply text_assigned_names.
Qed.

Lemma launch_reset_dict s : app_dict (launch_reset s) = app_dict s.
Proof.
  unfold launch_reset. cbn [rows_rebuilt set_hsplit_children set_rows app_dict].
  rewrite focus_set_dict. cbn [set_filtered_apps app_dict].
  apply text_assigned_dict.
Qed.

Lemma launch_reset_text s : search_text (launch_reset s) = EmptyString.
Proof.
  unfold launch_reset. cbn [rows_rebuilt set_hsplit_children set_rows search_text].
  rewrite focus_set_text. cbn [set_filtered_apps search_text].
  apply text_assigned_text.
Qed.

Lemma launch_reset_filtered s :
  filtered_apps (launch_reset s) = all_app_names s.
Proof.
  unfold launch_reset. cbn [rows_rebuilt set_hsplit_children set_rows filtered_apps].
  rewrite focus_set_filtered. cbn [set_filtered_apps filtered_apps].
  apply text_assigned_names.
Qed.

Lemma launch_reset_index s :
  all_app_names s <> [] -> focus_index (launch_reset s) = 0.
Proof.
  intros H. unfold launch_reset.
  cbn [rows_rebuilt set_hsplit_children set_rows focus_index].
  rewrite focus_set_index; cbn [set_filtered_apps filtered_apps];
    rewrite text_assigned_names; [|exact H].
  apply len_nonempty in H. lia.
Qed.

Lemma launch_reset_in_range s : focus_in_range (launch_reset s).
Proof. unfold launch_reset. apply rows_rebuilt_in_range, focus_set_in_range. Qed.

Lemma launch_reset_visible s : visible_from_index (launch_reset s).
Proof.
  unfold visible_from_index. rewrite launch_reset_filtered, launch_reset_names.
  reflexivity.
Qed.

Lemma getitem_in_range {A} (l : list A) i :
  0 <= i < Py.len l -> exists x, Py.getitem l i = Ok x /\ In x l.
Proof.
  intros H. unfold Py.getitem.
  destruct (Z.ltb_spec i 0); [lia|].
  destruct (Z.ltb_spec i 0); [lia|].
  destruct (Z.leb_spec (Py.len l) i); [lia|]. cbn [orb].
  destruct (nth_error l (Z.to_nat i)) as [x|] eqn:E.
  - exists x. split; [reflexivity|]. eapply nth_error_In, E.
  - apply nth_error_None in E. unfold Py.len in H. lia.
Qed.

Lemma getitem_ok {A} (l : list A) i x :
  Py.getitem l i = Ok x -> l <> [] /\ In x l.
Proof.
  unfold Py.getitem. intros H.
  destruct ((_ <? 0) || _); [discriminate|].
  destruct (nth_error l _) as [y|] eqn:E; [|discriminate].
  injection H as ->. apply nth_error_In in E. split; [|exact E].
  intros ->. destruct E.
Qed.

Lemma sublist_nonempty {A} (l k : list A) : sublist l k -> l <> [] -> k <> [].
Proof. intros H Hl ->. apply sublist_nil_r in H. contradiction. Qed.

Lemma spawned_app a b : spawned (a ++ b) = spawned a ++ spawned b.
Proof.
  induction a as [|[] a IH]; simpl; [reflexivity| |assumption..].
  now rewrite IH.
Qed.

Lemma shown_errors_app a b :
  shown_errors (a ++ b) = shown_errors a ++ shown_errors b.
Proof.
  induction a as [|[] a IH]; simpl; try assumption; [reflexivity|].
  now rewrite IH.
Qed.

Lemma text_assigned_events_quiet v s :
  spawned (text_assigned_events v s) = []
  /\ shown_errors (text_assigned_events v s) = [].
Proof.
  unfold text_assigned_events.
  destruct (String.eqb (search_text s) v); split; reflexivity.
Qed.

End TransformerFacts.

(** ** Navigation *)

Section Navigation.

Variable spawn : list string -> option Exn.

Lemma times_move_down k : forall s,
  filtered_apps s <> [] ->
  0 <= focus_index s < Py.len (filtered_apps s) ->
  result_of (times k move_down s) = Ok tt
  /\ filtered_apps (state_of (times k move_down s)) = filtered_apps s
  /\ focus_index (state_of (times k move_down s))
     = (focus_index s + Z.of_nat k) mod Py.len (filtered_apps s).
Proof.
  induction k as [|k IH]; intros s Hne Hr.
  - cbn. rewrite Z.add_0_r, Z.mod_small by exact Hr. auto.
  - cbn [times]. unfold bind. rewrite (move_down_run s Hne).
    assert (Hne' : filtered_apps (moved 1 s) <> [])
      by now rewrite moved_filtered.
    assert (Hr' : 0 <= focus_index (moved 1 s) < Py.len (filtered_apps (moved 1 s))).
    { rewrite moved_filtered, (moved_index _ _ Hne).
      apply Z.mod_pos_bound. lia. }
    destruct (IH (moved 1 s) Hne' Hr') as (Hres & Hf & Hi).
    destruct (times k move_down (moved 1 s)) as [[r s'] ev].
    unfold result_of, state_of in *. cbn [fst snd] in *.
    rewrite Hres. repeat split.
    + now rewrite Hf, moved_filtered.
    + rewrite Hi, moved_filtered, (moved_index _ _ Hne).
      rewrite Z.add_mod_idemp_l by lia. f_equal. lia.
Qed.

(** Every input leaves the session as it was, or in one of the four
    shapes above; only Enter can raise, and then the session is the one
    it started from. *)
Lemma handle_shapes i s :
  (exists e evs, handle spawn i s = (Raise e, s, evs)
                 /\ i = KeyEnter
                 /\ filtered_apps s <> []
                 /\ (Py.getitem (filtered_apps s) (focus_index s) = Raise e
                     \/ e = dialog_error))
  \/ (result_of (handle spawn i s) = Ok tt
      /\ (state_of (handle spawn i s) = s
          \/ (exists v, state_of (handle spawn i s) = text_assigned v s)
          \/ (exists d, filtered_apps s <> []
                        /\ state_of (handle spawn i s) = moved d s)
          \/ (filtered_apps s <> []
              /\ state_of (handle spawn i s) = launch_reset s))).
Proof.
  destruct i as [v| | |]; cbn [handle].
  - right. rewrite assign_search_text_run. split; [reflexivity|].
    right; left. now exists v.
  - right. destruct (filtered_apps s) as [|a l] eqn:E.
    + rewrite (move_empty move_up s) by auto. split; [reflexivity | now left].
    + rewrite move_up_run by congruence. split; [reflexivity|].
      right; right; left. exists (-1). split; [|reflexivity]. congruence.
  - right. destruct (filtered_apps s) as [|a l] eqn:E.
    + rewrite (move_empty move_down s) by auto. split; [reflexivity | now left].
    + rewrite move_down_run by congruence. split; [reflexivity|].
      right; right; left. exists 1. split; [|reflexivity]. congruence.
  - destruct (filtered_apps s) as [|a l] eqn:E.
    + right. rewrite launch_empty by exact E. split; [reflexivity | now left].
    + assert (Hne : filtered_apps s <> []) by congruence. rewrite <- E.
      destruct (Py.getitem (filtered_apps s) (focus_index s)) as [name|e] eqn:G.
      * destruct (attempt_result_cases spawn (app_dict s !! name)) as [A | A].
        -- right. rewrite (launch_run spawn s name Hne G A).
           split; [reflexivity|]. right; right; right. now split.
        -- left. exists dialog_error, (attempt_events (app_dict s !! name)).
           rewrite (launch_stops spawn s name _ Hne G A). auto.
      * left. exists e, []. rewrite (launch_raises spawn s e Hne G). auto.
Qed.

Lemma handle_in_range i s :
  focus_in_range s -> focus_in_range (state_of (handle spawn i s)).
Proof.
  intros H. destruct (handle_shapes i s) as [(e & evs & He & _) | (_ & Hs)].
  - now rewrite He.
  - destruct Hs as [-> | [[v ->] | [(d & _ & ->) | [_ ->]]]].
    + exact H.
    + now apply text_assigned_in_range.
    + apply moved_in_range.
    + apply launch_reset_in_range.
Qed.

(** From a session whose focus index is in range no handler raises an
    [IndexError] or a [ZeroDivisionError]: only Enter can raise, and only
    the exception of the dialog. *)
Lemma handle_result i s :
  focus_in_range s ->
  result_of (handle spawn i s) = Ok tt
  \/ (i = KeyEnter /\ result_of (handle spawn i s) = Raise dialog_error).
Proof.
  intros H.
  destruct (handle_shapes i s) as [(e & evs & He & Hi & Hne & [G | ->]) | (Hres & _)].
  - destruct (getitem_in_range _ _ (H Hne)) as (x & Hx & _). congruence.
  - right. now rewrite He.
  - now left.
Qed.

Lemma handle_in_sync i s :
  rows_in_sync s -> rows_in_sync (state_of (handle spawn i s)).
Proof.
  intros H. destruct (handle_shapes i s) as [(e & evs & He & _) | (_ & Hs)].
  - now rewrite He.
  - destruct Hs as [-> | [[v ->] | [(d & _ & ->) | [_ ->]]]].
    + exact H.
    + now apply text_assigned_in_sync.
    + apply rows_rebuilt_in_sync.
    + apply rows_rebuilt_in_sync.
Qed.

Lemma handle_visible i s :
  visible_from_index s -> visible_from_index (state_of (handle spawn i s)).
Proof.
  intros H. destruct (handle_shapes i s) as [(e & evs & He & _) | (_ & Hs)].
  - now rewrite He.
  - destruct Hs as [-> | [[v ->] | [(d & _ & ->) | [_ ->]]]].
    + exact H.
    + now apply text_assigned_visible.
    + unfold visible_from_index. now rewrite moved_filtered, moved_names.
    + apply launch_reset_visible.
Qed.

Lemma handle_index i s :
  all_app_names (state_of (handle spawn i s)) = all_app_names s
  /\ app_dict (state_of (handle spawn i s)) = app_dict s.
Proof.
  destruct (handle_shapes i s) as [(e & evs & He & _) | (_ & Hs)].
  - now rewrite He.
  - destruct Hs as [-> | [[v ->] | [(d & _ & ->) | [_ ->]]]].
    + auto.
    + split; [apply text_assigned_names | apply text_assigned_dict].
    + split; [apply moved_names | apply moved_dict].
    + split; [apply launch_reset_names | apply launch_reset_dict].
Qed.

Lemma init_shape apps :
  init apps
  = mkSession (map fst apps) (dict_of apps) EmptyString (map fst apps) 0
              (rows_for (map fst apps)) (rows_for (map fst apps)).
Proof.
  unfold init. rewrite build_rows_run. reflexivity.
Qed.

Lemma reachable_invariants apps s :
  reachable spawn apps s ->
  focus_in_range s /\ visible_from_index s /\ rows_in_sync s
  /\ all_app_names s = map fst apps /\ app_dict s = dict_of apps.
Proof.
  induction 1 as [|s i Hr (Hf & Hv & Hs & Hn & Hd) Hok].
  - rewrite init_shape. split; [|split; [|split; [|split]]].
    + intros Hne. cbn in *. apply len_nonempty in Hne. lia.
    + unfold visible_from_index. cbn. reflexivity.
    + split; reflexivity.
    + reflexivity.
    + reflexivity.
  - destruct (handle_index i s) as [Hn' Hd'].
    split; [|split; [|split; [|split]]].
    + now apply handle_in_range.
    + now apply handle_visible.
    + now apply handle_in_sync.
    + congruence.
    + congruence.
Qed.

End Navigation.

(** ** The launcher's navigation and launch properties *)

(** C10: pressing Enter while no name is visible changes nothing: the
    handler returns normally, the session (query, visible names, focus
    index, rows) is the one it started from, and no call leaves the
    program, neither a spawn nor an error dialog. *)
Theorem launch_on_empty_list_is_noop (spawn : list string -> option Exn) (s : Session) :
  filtered_apps s = [] -> launch spawn s = (Ok tt, s, []).
Proof. apply launch_empty. Qed.

Lemma launch_on_empty_list_is_noop_witness :
  filtered_apps sample_no_match = []
  /\ launch cpython_spawn sample_no_match = (Ok tt, sample_no_match, []).
Proof.
  split; [reflexivity|].
  apply (launch_on_empty_list_is_noop cpython_spawn sample_no_match). reflexivity.
Defined.

(** C7: while no name is visible, moving up or down returns normally and
    leaves the session, hence the focus index, untouched. *)
Theorem move_on_empty_list_is_noop (s : Session) :
  filtered_apps s = [] ->
  move_up s = (Ok tt, s, []) /\ move_down s = (Ok tt, s, []).
Proof.
  intros H. split; apply move_empty; auto.
Qed.

Lemma move_on_empty_list_is_noop_witness :
  filtered_apps sample_no_match = []
  /\ move_up sample_no_match = (Ok tt, sample_no_match, [])
  /\ move_down sample_no_match = (Ok tt, sample_no_match, []).
Proof.
  split; [reflexivity|].
  apply (move_on_empty_list_is_noop sample_no_match). reflexivity.
Defined.

(** C6: with N > 0 visible names and the focus index in [0, N-1], one move
    down puts the index at (index + 1) mod N and one move up at
    (index - 1) mod N, the visible names staying the same; N moves down
    bring the index back to where it started; one move up from index 0
    lands on N - 1. *)
Theorem focus_wraps (s : Session) :
  filtered_apps s <> [] ->
  0 <= focus_index s < Py.len (filtered_apps s) ->
  (result_of (move_down s) = Ok tt
   /\ filtered_apps (state_of (move_down s)) = filtered_apps s
   /\ focus_index (state_of (move_down s))
      = (focus_index s + 1) mod Py.len (filtered_apps s))
  /\ (result_of (move_up s) = Ok tt
      /\ filtered_apps (state_of (move_up s)) = filtered_apps s
      /\ focus_index (state_of (move_up s))
         = (focus_index s - 1) mod Py.len (filtered_apps s))
  /\ (result_of (times (length (filtered_apps s)) move_down s) = Ok tt
      /\ focus_index (state_of (times (length (filtered_apps s)) move_down s))
         = focus_index s)
  /\ (focus_index s = 0 ->
      focus_index (state_of (move_up s)) = Py.len (filtered_apps s) - 1).
Proof.
  intros Hne Hr.
  rewrite (move_down_run s Hne), (move_up_run s Hne).
  unfold result_of, state_of. cbn [fst snd].
  rewrite !moved_filtered, !(moved_index _ _ Hne).
  split; [auto|]. split; [auto|]. split.
  - destruct (times_move_down (length (filtered_apps s)) s Hne Hr) as (Hres & _ & Hi).
    split; [exact Hres|]. unfold state_of in Hi. rewrite Hi.
    change (Z.of_nat (length (filtered_apps s))) with (Py.len (filtered_apps s)).
    replace (focus_index s + Py.len (filtered_apps s))
      with (focus_index s + 1 * Py.len (filtered_apps s)) by lia.
    rewrite Z.mod_add by lia. apply Z.mod_small, Hr.
  - intros H0. rewrite H0, Z.add_0_l.
    replace (-1) with (Py.len (filtered_apps s) - 1 + (-1) * Py.len (filtered_apps s))
      by lia.
    rewrite Z.mod_add by lia. apply Z.mod_small. lia.
Qed.

Lemma focus_wraps_witness :
  filtered_apps sample <> []
  /\ 0 <= focus_index sample < Py.len (filtered_apps sample)
  /\ focus_index (state_of (times 3 move_down sample)) = 0
  /\ focus_index (state_of (move_up sample)) = 2.
Proof.
  assert (Hne : filtered_apps sample <> []) by discriminate.
  assert (Hr : 0 <= focus_index sample < Py.len (filtered_apps sample))
    by (change (0 <= 0 < 3); lia).
  destruct (focus_wraps sample Hne Hr) as (_ & _ & (_ & Hn) & Hup).
  split; [exact Hne|]. split; [exact Hr|]. split.
  - exact Hn.
  - exact (Hup eq_refl).
Defined.

(** C9: every input handled from a session whose focus index is in range
    leaves a session whose focus index is in range, that is, within
    [0, len(filtered_apps) - 1] whenever a name is visible; and the rows
    handed to the layout stay those of the visible names, so the next
    drawing finds the focused row among them. *)
Theorem focus_stays_in_range (spawn : list string -> option Exn)
        (i : Input) (s : Session) :
  focus_in_range s ->
  focus_in_range (state_of (handle spawn i s))
  /\ (rows_in_sync s -> rows_in_sync (state_of (handle spawn i s))).
Proof.
  intros H. split; [now apply handle_in_range | apply handle_in_sync].
Qed.

Lemma focus_stays_in_range_witness :
  focus_index sample_last = 2
  /\ filtered_apps (state_of (handle cpython_spawn (Typed "fire") sample_last))
     = ["Firefox"]
  /\ focus_index (state_of (handle cpython_spawn (Typed "fire") sample_last)) = 0
  /\ focus_in_range (state_of (handle cpython_spawn (Typed "fire") sample_last)).
Proof.
  split; [reflexivity|]. split; [reflexivity|]. split; [reflexivity|].
  apply (focus_stays_in_range cpython_spawn (Typed "fire") sample_last).
  intros _. change (0 <= 2 < 3). lia.
Defined.

(** C5 fails on the code when the launch fails.  The session
    [sample_editor] shows the query "edit" and the single name "Editor",
    whose command is a lone field code.  On Enter the spawn call is made
    with the empty vector and raises; the [except] clause calls
    [show_error], which raises in its turn, and the handler ends there:
    the lines that reset the search and the list are not run, and the
    query and the visible names are those of before. *)
Theorem launch_failure_skips_reset :
  search_text sample_editor = "edit"
  /\ filtered_apps sample_editor = ["Editor"]
  /\ all_app_names sample_editor = ["Firefox"; "VLC"; "Editor"]
  /\ spawned (events_of (launch cpython_spawn sample_editor)) = [[]]
  /\ result_of (launch cpython_spawn sample_editor) = Raise dialog_error
  /\ state_of (launch cpython_spawn sample_editor) = sample_editor
  /\ search_text (state_of (launch cpython_spawn sample_editor)) <> EmptyString
  /\ filtered_apps (state_of (launch cpython_spawn sample_editor))
     <> all_app_names sample_editor.
Proof.
  assert (H : launch cpython_spawn sample_editor
              = (Raise dialog_error, sample_editor, [Popen []])).
  { apply (launch_stops cpython_spawn sample_editor "Editor");
      [discriminate | reflexivity | reflexivity]. }
  rewrite H. unfold result_of, state_of, events_of. cbn [fst snd].
  repeat (split; [reflexivity || discriminate|]). discriminate.
Qed.

(** C2, as the code has it: when the focused name has no command in the
    mapping, the launch spawns nothing and shows no dialog; it returns
    normally and performs the reset (empty query, all names visible). *)
Theorem launch_lookup_miss_is_silent (spawn : list string -> option Exn)
        (s : Session) (name : string) :
  Py.getitem (filtered_apps s) (focus_index s) = Ok name ->
  app_dict s !! name = None ->
  result_of (launch spawn s) = Ok tt
  /\ spawned (events_of (launch spawn s)) = []
  /\ shown_errors (events_of (launch spawn s)) = []
  /\ search_text (state_of (launch spawn s)) = EmptyString
  /\ filtered_apps (state_of (launch spawn s)) = all_app_names s.
Proof.
  intros Hname Hmiss.
  destruct (getitem_ok _ _ _ Hname) as [Hne _].
  assert (A : attempt_result spawn (app_dict s !! name) = Ok tt)
    by now rewrite Hmiss.
  rewrite (launch_run spawn s name Hne Hname A), Hmiss.
  unfold result_of, state_of, events_of. cbn [fst snd attempt_events].
  rewrite app_nil_l, spawned_app, shown_errors_app.
  destruct (text_assigned_events_quiet EmptyString s) as [-> ->].
  split; [reflexivity|]. split; [reflexivity|]. split; [reflexivity|].
  split; [apply launch_reset_text | apply launch_reset_filtered].
Qed.

Lemma launch_lookup_miss_is_silent_witness :
  Py.getitem (filtered_apps ghost) (focus_index ghost) = Ok "Ghost"
  /\ app_dict ghost !! "Ghost" = None
  /\ result_of (launch cpython_spawn ghost) = Ok tt
  /\ shown_errors (events_of (launch cpython_spawn ghost)) = [].
Proof.
  destruct (launch_lookup_miss_is_silent cpython_spawn ghost "Ghost" eq_refl eq_refl)
    as (Hok & _ & Hsilent & _).
  split; [reflexivity|]. split; [reflexivity|]. split; [exact Hok | exact Hsilent].
Defined.

(** C2 read as stated fails: the focused name "Ghost" has no command, and
    the launch shows no dialog at all, so no failure reason reaches the
    user. *)
Lemma launch_lookup_miss_shows_nothing :
  Py.getitem (filtered_apps ghost) (focus_index ghost) = Ok "Ghost"
  /\ app_dict ghost !! "Ghost" = None
  /\ events_of (launch cpython_spawn ghost) = [LayoutFocusSearchBox; Invalidate]
  /\ ~ In (MessageDialog "Error" "no command for Ghost")
          (events_of (launch cpython_spawn ghost)).
Proof.
  split; [reflexivity|]. split; [reflexivity|]. split; [reflexivity|].
  intros [H | [H | []]]; discriminate.
Qed.

(** C3, as the code has it: when the focused entry's non-empty command
    sanitizes to an empty argument vector, the launch does hand that empty
    vector to the spawn call, once, and it never reports the reason
    "empty command". *)
Theorem launch_empty_argv_is_spawned (spawn : list string -> option Exn)
        (s : Session) (name cmd : string) :
  Py.getitem (filtered_apps s) (focus_index s) = Ok name ->
  app_dict s !! name = Some cmd ->
  cmd <> EmptyString ->
  clean_exec_cmd cmd = Ok [] ->
  spawned (events_of (launch spawn s)) = [[]]
  /\ ~ In "empty command" (shown_errors (events_of (launch spawn s))).
Proof.
  intros Hname Hcmd Hnz Hclean.
  destruct (getitem_ok _ _ _ Hname) as [Hne _].
  assert (E : attempt_events (app_dict s !! name) = [Popen []]).
  { rewrite Hcmd. destruct cmd as [|c0 c]; [contradiction|].
    cbn [attempt_events]. now rewrite Hclean. }
  destruct (attempt_result_cases spawn (app_dict s !! name)) as [A | A].
  - rewrite (launch_run spawn s name Hne Hname A), E.
    unfold events_of. cbn [snd].
    rewrite spawned_app, shown_errors_app, spawned_app, shown_errors_app.
    destruct (text_assigned_events_quiet EmptyString s) as [-> ->].
    split; [reflexivity | intros []].
  - rewrite (launch_stops spawn s name _ Hne Hname A), E.
    unfold events_of. cbn [snd]. split; [reflexivity | intros []].
Qed.

Lemma launch_empty_argv_is_spawned_witness :
  Py.getitem (filtered_apps sample_editor) (focus_index sample_editor) = Ok "Editor"
  /\ app_dict sample_editor !! "Editor" = Some "%U"
  /\ clean_exec_cmd "%U" = Ok []
  /\ spawned (events_of (launch cpython_spawn sample_editor)) = [[]].
Proof.
  assert (Hnz : "%U" <> EmptyString) by discriminate.
  destruct (launch_empty_argv_is_spawned cpython_spawn sample_editor "Editor" "%U"
              eq_refl eq_refl Hnz eq_refl) as (Hsp & _).
  split; [reflexivity|]. split; [reflexivity|]. split; [reflexivity | exact Hsp].
Defined.

(** C3 read as stated fails: the command of "Editor" is a lone field code,
    it sanitizes to the empty vector, and that vector is handed to the
    spawn call; no reason "empty command" is reported. *)
Lemma launch_empty_argv_reaches_spawn :
  Py.getitem (filtered_apps sample_editor) (focus_index sample_editor) = Ok "Editor"
  /\ app_dict sample_editor !! "Editor" = Some "%U"
  /\ clean_exec_cmd "%U" = Ok []
  /\ In [] (spawned (events_of (launch cpython_spawn sample_editor)))
  /\ ~ In "empty command"
          (shown_errors (events_of (launch cpython_spawn sample_editor))).
Proof.
  split; [reflexivity|]. split; [reflexivity|]. split; [reflexivity|].
  split; [left; reflexivity|]. intros [].
Qed.

(** ** Filtering *)

(** C4, as the code has it: after a change of the search text, a name is
    visible exactly when it is in the index and the text, stripped of
    surrounding white space and lower-cased, occurs in the lower-cased
    name; the visible names are the matching names of the index in their
    original order; a text that strips to nothing shows every name. *)
Theorem filter_matches_stripped_query (s : Session) :
  (forall name,
      In name (filtered_apps (state_of (on_search_change s)))
      <-> In name (all_app_names s)
          /\ substring (Py.str_lower (Py.str_strip (search_text s)))
                       (Py.str_lower name))
  /\ filtered_apps (state_of (on_search_change s))
     = List.filter
         (fun name => Py.str_contains (Py.str_lower (Py.str_strip (search_text s)))
                                      (Py.str_lower name))
         (all_app_names s)
  /\ sublist (filtered_apps (state_of (on_search_change s))) (all_app_names s)
  /\ (Py.str_strip (search_text s) = EmptyString ->
      filtered_apps (state_of (on_search_change s)) = all_app_names s).
Proof.
  rewrite on_search_change_run. unfold state_of. cbn [fst snd].
  rewrite refiltered_filtered. split; [|split; [|split]].
  - intros name. rewrite filter_In. unfold matches.
    now rewrite str_contains_spec.
  - reflexivity.
  - apply filter_sublist_bool.
  - intros H. apply filter_all_true. intros a. unfold matches.
    rewrite H. apply str_contains_empty.
Qed.

(** C4 read as stated fails: with a single blank in the search box every
    name stays visible, although a blank does not occur in "vlc". *)
Lemma filter_ignores_surrounding_blanks :
  search_text sample_blank_query = " "
  /\ In "VLC" (filtered_apps (state_of (on_search_change sample_blank_query)))
  /\ ~ substring (Py.str_lower " ") (Py.str_lower "VLC").
Proof.
  split; [reflexivity|]. split.
  - right; left. reflexivity.
  - rewrite <- str_contains_spec. discriminate.
Qed.

(** ** Sanitizing a command *)

(** C8: whenever the lexer splits the command into tokens, the sanitizer
    returns those tokens that do not begin with a percent sign, in their
    order, and nothing else; a lexer error is passed on; the lexer always
    ends within its budget; and the three commands of the specification
    give the expected vectors. *)
Theorem clean_exec_cmd_strips_field_codes :
  (forall exec_cmd toks,
      Shlex.split exec_cmd = Ok toks ->
      exists args,
        clean_exec_cmd exec_cmd = Ok args
        /\ args = List.filter (fun t => negb (Py.str_startswith "%" t)) toks
        /\ sublist args toks
        /\ (forall t, In t args <-> In t toks /\ ~ field_code t))
  /\ (forall exec_cmd e,
         Shlex.split exec_cmd = Raise e -> clean_exec_cmd exec_cmd = Raise e)
  /\ (forall exec_cmd,
         Shlex.tokens (S (String.length exec_cmd)) exec_cmd Shlex.Blank
         = Some (Shlex.split exec_cmd))
  /\ clean_exec_cmd "app %U --flag %f" = Ok ["app"; "--flag"]
  /\ clean_exec_cmd "app" = Ok ["app"]
  /\ clean_exec_cmd EmptyString = Ok [].
Proof.
  split; [|split; [|split; [|split; [|split]]]]; try reflexivity.
  - intros exec_cmd toks H. unfold clean_exec_cmd. rewrite H.
    eexists. split; [reflexivity|]. split; [reflexivity|].
    split; [apply filter_sublist_bool|].
    intros t. rewrite filter_In, negb_true_iff, <- field_code_spec.
    split; intros [Hin Hf]; (split; [exact Hin|]).
    + rewrite Hf. discriminate.
    + now destruct (Py.str_startswith "%" t).
  - intros exec_cmd e H. unfold clean_exec_cmd. now rewrite H.
  - apply split_tokens.
Qed.

Lemma clean_exec_cmd_strips_field_codes_witness :
  Shlex.split "sh -c 'run %f' %U" = Ok ["sh"; "-c"; "run %f"; "%U"]
  /\ clean_exec_cmd "sh -c 'run %f' %U" = Ok ["sh"; "-c"; "run %f"]
  /\ (In "%U" ["sh"; "-c"; "run %f"] <->
      In "%U" ["sh"; "-c"; "run %f"; "%U"] /\ ~ field_code "%U").
Proof.
  destruct clean_exec_cmd_strips_field_codes as (H & _).
  destruct (H "sh -c 'run %f' %U" ["sh"; "-c"; "run %f"; "%U"] eq_refl)
    as (args & Hc & Hargs & _ & Hin).
  split; [reflexivity|]. split; [reflexivity|].
  rewrite Hargs in Hin. exact (Hin "%U").
Defined.

(** ** Scanning the descriptors *)

Section Scanner.

Variable fs : FileSystem.

Lemma get_fallback cfg section name d :
  ConfigParser.get cfg section name (Some d)
  = Some (default d (ConfigParser.get cfg section name None)).
Proof.
  unfold ConfigParser.get.
  destruct (ConfigParser.sections cfg !! section) as [sd|].
  - destruct (sd !! ConfigParser.optionxform name); [reflexivity|].
    destruct (ConfigParser.defaults cfg !! ConfigParser.optionxform name);
      reflexivity.
  - destruct (String.eqb section ConfigParser.default_section); [|reflexivity].
    rewrite lookup_empty.
    destruct (ConfigParser.defaults cfg !! ConfigParser.optionxform name);
      reflexivity.
Qed.

Lemma try_entry_spec filepath n e :
  try_entry fs filepath = Ok (Some (n, e))
  <-> exists cfg, config_read fs filepath = ReadOk cfg /\ qualifies cfg n e.
Proof.
  unfold try_entry, qualifies.
  destruct (config_read fs filepath) as [x|cfg].
  { split; [discriminate | intros (cfg & H & _); discriminate]. }
  rewrite !get_fallback. cbn [opt_lower].
  set (entry := ConfigParser.get cfg "Desktop Entry" "Name" None).
  set (exec_cmd := ConfigParser.get cfg "Desktop Entry" "Exec" None).
  set (nd := Py.str_lower
               (default "false"
                  (ConfigParser.get cfg "Desktop Entry" "NoDisplay" None))).
  split.
  - intros H. exists cfg. split; [reflexivity|].
    destruct (Py.truthy entry) eqn:Te; [|discriminate].
    destruct (Py.truthy exec_cmd) eqn:Tx; [|discriminate].
    destruct (String.eqb_spec nd "true") as [E|E]; [discriminate|].
    apply truthy_spec in Te as (n' & Hn & Hnz).
    apply truthy_spec in Tx as (e' & He & Hez).
    rewrite Hn, He in H. cbn in H. injection H as <- <-. auto.
  - intros (cfg' & Hc & Hn & Hnz & He & Hez & Hnd). injection Hc as <-.
    subst entry exec_cmd. rewrite Hn, He.
    destruct n as [|? ?]; [contradiction|].
    destruct e as [|? ?]; [contradiction|].
    destruct (String.eqb_spec nd "true") as [E|E]; [contradiction|].
    reflexivity.
Qed.

Lemma scan_file_In directory apps filename app :
  In app (scan_file fs directory apps filename)
  <-> In app apps
      \/ (Py.str_endswith ".desktop" filename = true
          /\ try_entry fs (path_join directory filename) = Ok (Some app)).
Proof.
  unfold scan_file.
  destruct (Py.str_endswith ".desktop" filename).
  - destruct (try_entry fs (path_join directory filename)) as [[a|]|x].
    + rewrite in_app_iff. cbn [In]. split.
      * intros [H | [-> | []]]; auto.
      * intros [H | [_ H]]; [auto|]. injection H as ->. auto.
    + split; [auto | intros [H | [_ H]]; [exact H | discriminate]].
    + split; [auto | intros [H | [_ H]]; [exact H | discriminate]].
  - split; [auto | intros [H | [H _]]; [exact H | discriminate]].
Qed.

Lemma scan_files_In directory filenames : forall apps app,
  In app (fold_left (scan_file fs directory) filenames apps)
  <-> In app apps
      \/ exists filename,
           In filename filenames
           /\ Py.str_endswith ".desktop" filename = true
           /\ try_entry fs (path_join directory filename) = Ok (Some app).
Proof.
  induction filenames as [|f more IH]; intros apps app; cbn [fold_left].
  - split; [auto | intros [H | (f & [] & _)]; exact H].
  - rewrite IH, scan_file_In. split.
    + intros [[H | [He Ht]] | (f' & Hin & He & Ht)]; [auto | right | right].
      * exists f. cbn [In]. auto.
      * exists f'. cbn [In]. auto.
    + intros [H | (f' & [<- | Hin] & He & Ht)]; [auto | auto |].
      right. now exists f'.
Qed.

Lemma scan_dir_In apps directory app :
  In app (scan_dir fs apps directory)
  <-> In app apps
      \/ exists filenames filename,
           listdir fs directory = Some filenames
           /\ In filename filenames
           /\ Py.str_endswith ".desktop" filename = true
           /\ try_entry fs (path_join directory filename) = Ok (Some app).
Proof.
  unfold scan_dir. destruct (listdir fs directory) as [filenames|].
  - rewrite scan_files_In. split.
    + intros [H | (f & H)]; [auto|]. right. exists filenames, f. auto.
    + intros [H | (l & f & Hl & H)]; [auto|]. injection Hl as <-.
      right. now exists f.
  - split; [auto | intros [H | (l & f & Hl & _)]; [exact H | discriminate]].
Qed.

Lemma scan_dirs_In ds : forall apps app,
  In app (fold_left (scan_dir fs) ds apps)
  <-> In app apps
      \/ exists directory filenames filename,
           In directory ds
           /\ listdir fs directory = Some filenames
           /\ In filename filenames
           /\ Py.str_endswith ".desktop" filename = true
           /\ try_entry fs (path_join directory filename) = Ok (Some app).
Proof.
  induction ds as [|d more IH]; intros apps app; cbn [fold_left].
  - split; [auto | intros [H | (d & l & f & [] & _)]; exact H].
  - rewrite IH, scan_dir_In. split.
    + intros [[H | (l & f & H)] | (d' & l & f & Hin & H)]; [auto | right | right].
      * exists d, l, f. cbn [In]. auto.
      * exists d', l, f. cbn [In]. auto.
    + intros [H | (d' & l & f & [<- | Hin] & H)]; [auto | |].
      * left. right. now exists l, f.
      * right. now exists d', l, f.
Qed.

End Scanner.

Section Mapping.

Lemma dict_of_acc_origin apps : forall (d : gmap string string) name cmd,
  fold_left (fun d app => <[ fst app := snd app ]> d) apps d !! name = Some cmd ->
  d !! name = Some cmd \/ In (name, cmd) apps.
Proof.
  induction apps as [|[n c] apps IH]; intros d name cmd H; cbn [fold_left] in H.
  - now left.
  - apply IH in H as [H | H]; [|right; now right].
    cbn [fst snd] in H. destruct (decide (n = name)) as [->|Hne].
    + rewrite lookup_insert_eq in H. injection H as ->. right. now left.
    + rewrite lookup_insert_ne in H by exact Hne. now left.
Qed.

Lemma dict_of_acc_hit apps : forall (d : gmap string string) name,
  is_Some (d !! name) \/ In name (map fst apps) ->
  is_Some (fold_left (fun d app => <[ fst app := snd app ]> d) apps d !! name).
Proof.
  induction apps as [|[n c] apps IH]; intros d name H; cbn [fold_left].
  - destruct H as [H | []]. exact H.
  - apply IH. cbn [fst snd map In] in *.
    destruct (decide (n = name)) as [->|Hne].
    + left. rewrite lookup_insert_eq. now exists c.
    + rewrite lookup_insert_ne by exact Hne.
      destruct H as [H | [H | H]]; [now left | contradiction | now right].
Qed.

(** Every indexed name has a command in the mapping, and that command
    comes from a scanned pair with this name. *)
Lemma dict_of_lookup apps name :
  In name (map fst apps) ->
  exists cmd, dict_of apps !! name = Some cmd /\ In (name, cmd) apps.
Proof.
  intros H. unfold dict_of.
  destruct (dict_of_acc_hit apps ∅ name (or_intror H)) as [cmd Hc].
  exists cmd. split; [exact Hc|].
  apply dict_of_acc_origin in Hc as [Hc | Hc]; [|exact Hc].
  rewrite lookup_empty in Hc. discriminate.
Qed.

Lemma list_apps_nonempty fs n e :
  In (n, e) (list_apps fs) -> n <> EmptyString /\ e <> EmptyString.
Proof.
  unfold list_apps. rewrite scan_dirs_In.
  intros [[] | (d & l & f & _ & _ & _ & _ & Ht)].
  apply try_entry_spec in Ht as (cfg & _ & _ & Hn & _ & He & _). auto.
Qed.

Lemma sublist_In {A} (l k : list A) x : sublist l k -> In x l -> In x k.
Proof.
  intros H Hin. apply list_elem_of_In. apply list_elem_of_In in Hin.
  exact (sublist_subseteq _ _ H _ Hin).
Qed.

(** In a run of the program every visible name has a non-empty command:
    the branch of [launch] for a missing command is not taken. *)
Lemma reachable_lookup_hits spawn fs s name :
  reachable spawn (list_apps fs) s ->
  In name (filtered_apps s) ->
  exists cmd, app_dict s !! name = Some cmd /\ cmd <> EmptyString.
Proof.
  intros Hr Hin.
  destruct (reachable_invariants spawn _ s Hr) as (_ & Hv & _ & Hn & Hd).
  apply (sublist_In _ _ _ Hv) in Hin. rewrite Hn in Hin.
  destruct (dict_of_lookup _ _ Hin) as (cmd & Hc & Hp).
  exists cmd. rewrite Hd. split; [exact Hc|].
  now apply list_apps_nonempty in Hp.
Qed.

End Mapping.

(** C1, as the code has it: a pair (name, command) is in the index exactly
    when some descriptor file of a scanned directory parses and has both
    the Name and the Exec key with non-empty values, equal to the pair,
    while its NoDisplay value, lower-cased, is not "true". *)
Theorem list_apps_inclusion (fs : FileSystem) (n e : string) :
  In (n, e) (list_apps fs)
  <-> exists directory filenames filename cfg,
        In directory (dirs fs)
        /\ listdir fs directory = Some filenames
        /\ In filename filenames
        /\ Py.str_endswith ".desktop" filename = true
        /\ config_read fs (path_join directory filename) = ReadOk cfg
        /\ qualifies cfg n e.
Proof.
  unfold list_apps. rewrite scan_dirs_In. split.
  - intros [[] | (d & l & f & Hd & Hl & Hf & He & Ht)].
    apply try_entry_spec in Ht as (cfg & Hc & Hq).
    exists d, l, f, cfg. repeat (split; [assumption|]). exact Hq.
  - intros (d & l & f & cfg & Hd & Hl & Hf & He & Hc & Hq).
    right. exists d, l, f. repeat (split; [assumption|]).
    apply try_entry_spec. now exists cfg.
Qed.

(** C1 read as stated fails: the Editor descriptor is scanned, has both
    keys and no NoDisplay, its Exec being present and empty, and the index
    built from the scenario holds Firefox only. *)
Lemma empty_exec_is_excluded :
  In "editor.desktop" (default [] (listdir scenario_fs "/usr/share/applications"))
  /\ config_read scenario_fs (path_join "/usr/share/applications" "editor.desktop")
     = ReadOk editor_cfg
  /\ ConfigParser.get editor_cfg "Desktop Entry" "Name" None = Some "Editor"
  /\ ConfigParser.get editor_cfg "Desktop Entry" "Exec" None = Some EmptyString
  /\ ConfigParser.get editor_cfg "Desktop Entry" "NoDisplay" None = None
  /\ list_apps scenario_fs = [("Firefox", "firefox %u")]
  /\ ~ In "Editor" (map fst (list_apps scenario_fs)).
Proof.
  assert (H : list_apps scenario_fs = [("Firefox", "firefox %u")])
    by (vm_compute; reflexivity).
  split; [cbn; tauto|]. split; [reflexivity|].
  split; [vm_compute; reflexivity|]. split; [vm_compute; reflexivity|].
  split; [vm_compute; reflexivity|]. split; [exact H|].
  rewrite H. intros [E | []]. discriminate.
Qed.


(** ** Further properties of the scanner *)

Section ScannerOrder.

Variable fs : FileSystem.

Lemma scan_file_entries directory apps filename :
  scan_file fs directory apps filename = apps ++ file_entries fs directory filename.
Proof.
  unfold scan_file, file_entries.
  destruct (Py.str_endswith ".desktop" filename); [|now rewrite app_nil_r].
  destruct (try_entry fs (path_join directory filename)) as [[a|]|x];
    now rewrite ?app_nil_r.
Qed.

Lemma scan_files_entries directory filenames : forall apps,
  fold_left (scan_file fs directory) filenames apps
  = apps ++ flat_map (file_entries fs directory) filenames.
Proof.
  induction filenames as [|f more IH]; intros apps; cbn [fold_left flat_map].
  - now rewrite app_nil_r.
  - now rewrite IH, scan_file_entries, <- app_assoc.
Qed.

Lemma scan_dir_entries apps directory :
  scan_dir fs apps directory = apps ++ dir_entries fs directory.
Proof.
  unfold scan_dir, dir_entries. destruct (listdir fs directory).
  - apply scan_files_entries.
  - now rewrite app_nil_r.
Qed.

Lemma scan_dirs_entries ds : forall apps,
  fold_left (scan_dir fs) ds apps = apps ++ flat_map (dir_entries fs) ds.
Proof.
  induction ds as [|d more IH]; intros apps; cbn [fold_left flat_map].
  - now rewrite app_nil_r.
  - now rewrite IH, scan_dir_entries, <- app_assoc.
Qed.

Lemma get_with_option_other cfg section key value name fallback :
  is_Some (ConfigParser.sections cfg !! section) ->
  ConfigParser.optionxform name <> key ->
  ConfigParser.get (with_option section key value cfg) section name fallback
  = ConfigParser.get cfg section name fallback.
Proof.
  intros [sd Hsd] Hne. unfold ConfigParser.get, with_option.
  cbn [ConfigParser.sections ConfigParser.defaults].
  rewrite lookup_insert_eq, Hsd. cbn [default].
  now rewrite lookup_insert_ne by congruence.
Qed.

End ScannerOrder.

(** X1: the index lists the entries directory by directory, in the order
    of [dirs], and within a directory in the order of the listing; a
    directory that does not exist adds nothing, and a file adds at most
    one entry: none when its name does not end in ".desktop", when reading
    it raises, or when it does not qualify. *)
Theorem list_apps_scan_order (fs : FileSystem) :
  list_apps fs
  = dir_entries fs "/usr/share/applications"
    ++ dir_entries fs (expanduser fs "~/.local/share/applications")
  /\ (forall d, listdir fs d = None -> dir_entries fs d = [])
  /\ (forall d filenames,
         listdir fs d = Some filenames ->
         dir_entries fs d = flat_map (file_entries fs d) filenames)
  /\ (forall d f, (length (file_entries fs d f) <= 1)%nat)
  /\ (forall d f, Py.str_endswith ".desktop" f = false -> file_entries fs d f = [])
  /\ (forall d f e, config_read fs (path_join d f) = ReadRaises e ->
                    file_entries fs d f = []).
Proof.
  split; [|split; [|split; [|split; [|split]]]].
  - unfold list_apps, dirs. rewrite scan_dirs_entries.
    cbn [flat_map app]. now rewrite app_nil_r.
  - intros d H. unfold dir_entries. now rewrite H.
  - intros d l H. unfold dir_entries. now rewrite H.
  - intros d f. unfold file_entries.
    destruct (Py.str_endswith ".desktop" f); [|cbn; lia].
    destruct (try_entry fs (path_join d f)) as [[a|]|x]; cbn; lia.
  - intros d f H. unfold file_entries. now rewrite H.
  - intros d f e H. unfold file_entries, try_entry. rewrite H.
    now destruct (Py.str_endswith ".desktop" f).
Qed.

(** X2: every pair of the index has a non-empty display name and a
    non-empty command. *)
Theorem list_apps_entries_nonempty (fs : FileSystem) (n e : string) :
  In (n, e) (list_apps fs) -> n <> EmptyString /\ e <> EmptyString.
Proof. apply list_apps_nonempty. Qed.

Lemma list_apps_entries_nonempty_witness :
  In ("Firefox", "firefox %u") (list_apps scenario_fs)
  /\ "Firefox" <> EmptyString /\ "firefox %u" <> EmptyString.
Proof.
  assert (H : In ("Firefox", "firefox %u") (list_apps scenario_fs))
    by (vm_compute; left; reflexivity).
  split; [exact H|].
  exact (list_apps_entries_nonempty scenario_fs "Firefox" "firefox %u" H).
Defined.

(** X3: the Terminal key is read and then ignored: giving it any value in
    a descriptor that has a [Desktop Entry] section changes neither
    whether the file yields an entry nor which one. *)
Theorem terminal_key_is_ignored (fs fs' : FileSystem) (filepath value : string)
        (cfg : ConfigParser.Config) :
  is_Some (ConfigParser.sections cfg !! "Desktop Entry") ->
  config_read fs filepath = ReadOk cfg ->
  config_read fs' filepath
  = ReadOk (with_option "Desktop Entry" "terminal" value cfg) ->
  try_entry fs' filepath = try_entry fs filepath.
Proof.
  intros Hs H H'. unfold try_entry. rewrite H, H'.
  rewrite !(get_with_option_other cfg "Desktop Entry" "terminal" value "Name")
    by (assumption || discriminate).
  rewrite !(get_with_option_other cfg "Desktop Entry" "terminal" value "Exec")
    by (assumption || discriminate).
  rewrite !(get_with_option_other cfg "Desktop Entry" "terminal" value "NoDisplay")
    by (assumption || discriminate).
  rewrite !(get_fallback _ "Desktop Entry" "Terminal"). reflexivity.
Qed.

Lemma terminal_key_is_ignored_witness :
  try_entry
    (mkFS (fun p => p) (fun _ => None)
          (fun _ => ReadOk (with_option "Desktop Entry" "terminal" "true" firefox_cfg)))
    "firefox.desktop"
  = Ok (Some ("Firefox", "firefox %u")).
Proof.
  rewrite (terminal_key_is_ignored
             (mkFS (fun p => p) (fun _ => None) (fun _ => ReadOk firefox_cfg))
             _ "firefox.desktop" "true" firefox_cfg);
    [vm_compute; reflexivity | vm_compute; eauto | reflexivity | reflexivity].
Defined.

(** X4: in the name-to-command mapping the pair scanned last wins: a name
    that occurs several times in the index is mapped to the command of its
    last occurrence. *)
Theorem dict_of_last_wins (l1 l2 : list (string * string)) (n c : string) :
  ~ In n (map fst l2) ->
  dict_of (l1 ++ (n, c) :: l2) !! n = Some c.
Proof.
  intros Hnot. unfold dict_of. rewrite fold_left_app. cbn [fold_left fst snd].
  generalize (fold_left (fun d app => <[ fst app := snd app ]> d) l1
                        (∅ : gmap string string)).
  intros d.
  assert (G : forall (l : list (string * string)) (m : gmap string string),
             ~ In n (map fst l) -> m !! n = Some c ->
             fold_left (fun d app => <[ fst app := snd app ]> d) l m !! n = Some c).
  { induction l as [|[k v] l IH]; intros m Hn Hm; cbn [fold_left]; [exact Hm|].
    cbn [map fst In] in Hn. apply IH; [tauto|].
    cbn [fst snd]. rewrite lookup_insert_ne by tauto. exact Hm. }
  apply G; [exact Hnot | apply lookup_insert_eq].
Qed.

Lemma dict_of_last_wins_witness :
  dict_of [("Editor", "vi"); ("Editor", "emacs %f"); ("VLC", "vlc")] !! "Editor"
  = Some "emacs %f".
Proof.
  apply (dict_of_last_wins [("Editor", "vi")] [("VLC", "vlc")] "Editor" "emacs %f").
  cbn. intros [H | []]. discriminate.
Defined.


(** ** Further properties of the session *)

Section LexerErrors.

Import Shlex.

Lemma read_loop_error instream : forall st tok q es e,
  read_loop instream st tok q es = Raise e -> lexer_error e.
Proof.
  unfold lexer_error.
  induction instream as [|c more IH]; intros st tok q es e H.
  - destruct st; simpl in H; try discriminate; injection H as <-; auto.
  - simpl in H.
    destruct st;
      repeat match type of H with
             | context [if ?c then _ else _] => destruct c
             end;
      try discriminate; try (apply IH in H; exact H).
Qed.

Lemma tokens_error fuel : forall instream st e,
  tokens fuel instream st = Some (Raise e) -> lexer_error e.
Proof.
  induction fuel as [|fuel IH]; intros instream st e H; [discriminate|].
  simpl in H. unfold read_token in H.
  destruct (read_loop instream st EmptyString false Blank) as [b|x] eqn:E.
  - destruct (negb (quoted b) && String.eqb (token b) EmptyString);
      [discriminate|].
    destruct (tokens fuel (rest b) (state b)) as [[ts|x]|] eqn:T;
      try discriminate.
    injection H as <-. eapply IH, T.
  - injection H as <-. eapply read_loop_error, E.
Qed.

Lemma clean_exec_cmd_error cmd e :
  clean_exec_cmd cmd = Raise e -> lexer_error e.
Proof.
  unfold clean_exec_cmd. destruct (split cmd) as [toks|x] eqn:E; [discriminate|].
  intros H. injection H as <-.
  pose proof (split_tokens cmd) as T. rewrite E in T.
  eapply tokens_error, T.
Qed.

End LexerErrors.

Section SessionFacts.

Variable spawn : list string -> option Exn.

Lemma launch_reset_is_init apps s :
  all_app_names s = map fst apps ->
  app_dict s = dict_of apps ->
  all_app_names s <> [] ->
  launch_reset s = init apps.
Proof.
  intros Hn Hd Hne. rewrite init_shape. unfold launch_reset.
  pose proof (text_assigned_names EmptyString s) as Hn1.
  pose proof (text_assigned_dict EmptyString s) as Hd1.
  pose proof (text_assigned_text EmptyString s) as Ht1.
  destruct (text_assigned EmptyString s) as [names d t f i r h].
  cbn [all_app_names app_dict search_text] in *. subst names d t.
  unfold rows_rebuilt, focus_set.
  cbn [set_filtered_apps filtered_apps all_app_names app_dict search_text
       focus_index rows hsplit_children].
  apply nonempty_spec in Hne as Hb. rewrite Hb.
  cbn [set_focus_index set_rows set_hsplit_children filtered_apps all_app_names
       app_dict search_text focus_index rows hsplit_children].
  apply len_nonempty in Hne.
  replace (Z.min (Z.max 0 0) (Py.len (all_app_names s) - 1)) with 0 by lia.
  now rewrite Hn, Hd.
Qed.

Lemma refiltered_index s :
  (filtered_apps (refiltered s) <> [] -> focus_index (refiltered s) = 0)
  /\ (filtered_apps (refiltered s) = [] -> focus_index (refiltered s) = focus_index s).
Proof.
  rewrite refiltered_filtered. unfold refiltered.
  cbn [rows_rebuilt set_hsplit_children set_rows focus_index].
  set (l := List.filter (matches (search_text s)) (all_app_names s)).
  split; intros H.
  - rewrite focus_set_index by exact H. cbn [set_filtered_apps filtered_apps].
    apply len_nonempty in H. lia.
  - unfold focus_set. cbn [set_filtered_apps filtered_apps]. now rewrite H.
Qed.

Lemma refiltered_idempotent s : refiltered (refiltered s) = refiltered s.
Proof.
  unfold refiltered at 1.
  rewrite refiltered_text, refiltered_names.
  unfold refiltered, rows_rebuilt, focus_set.
  cbn [set_filtered_apps filtered_apps all_app_names app_dict search_text
       focus_index rows hsplit_children].
  destruct (List.filter (matches (search_text s)) (all_app_names s)) eqn:E;
    cbn [nonempty]; reflexivity.
Qed.

Lemma attempt_spawns cmd args :
  cmd <> EmptyString ->
  clean_exec_cmd cmd = Ok args ->
  attempt_events (Some cmd) = [Popen args]
  /\ attempt_result spawn (Some cmd)
     = match spawn args with
       | None => Ok tt
       | Some _ => Raise dialog_error
       end.
Proof.
  intros Hnz Hclean. destruct cmd as [|c0 c]; [contradiction|].
  cbn [attempt_events attempt_result]. now rewrite Hclean.
Qed.

Lemma attempt_rejected cmd e :
  clean_exec_cmd cmd = Raise e ->
  attempt_events (Some cmd) = []
  /\ attempt_result spawn (Some cmd) = Raise dialog_error.
Proof.
  intros Hclean. destruct cmd as [|c0 c]; [discriminate Hclean|].
  cbn [attempt_events attempt_result]. now rewrite Hclean.
Qed.

Lemma launch_spawned s name cmd args :
  Py.getitem (filtered_apps s) (focus_index s) = Ok name ->
  app_dict s !! name = Some cmd ->
  cmd <> EmptyString ->
  clean_exec_cmd cmd = Ok args ->
  spawned (events_of (launch spawn s)) = [args].
Proof.
  intros Hname Hcmd Hnz Hclean.
  destruct (getitem_ok _ _ _ Hname) as [Hne _].
  destruct (attempt_spawns cmd args Hnz Hclean) as [E _].
  destruct (attempt_result_cases spawn (app_dict s !! name)) as [A | A].
  - rewrite (launch_run spawn s name Hne Hname A), Hcmd, E.
    unfold events_of. cbn [snd]. rewrite spawned_app, spawned_app.
    now destruct (text_assigned_events_quiet EmptyString s) as [-> _].
  - rewrite (launch_stops spawn s name _ Hne Hname A), Hcmd, E. reflexivity.
Qed.

Lemma search_change_refocus_zero s :
  filtered_apps (state_of (on_search_change s)) <> [] ->
  focus_index (state_of (on_search_change s)) = 0.
Proof.
  rewrite on_search_change_run. unfold state_of. cbn [fst snd].
  apply refiltered_index.
Qed.

End SessionFacts.

(** X5: no input changes the index of display names or the
    name-to-command mapping. *)
Theorem handlers_keep_index (spawn : list string -> option Exn)
        (i : Input) (s : Session) :
  all_app_names (state_of (handle spawn i s)) = all_app_names s
  /\ app_dict (state_of (handle spawn i s)) = app_dict s.
Proof. apply handle_index. Qed.

(** X6: in every session a run of the program can reach, the focus index
    is in range, the visible names are a subsequence of the index and the
    layout holds the rows of the visible names; no handler raises an
    [IndexError] or a [ZeroDivisionError] there: a text change and a move
    return normally, and Enter returns normally or ends in the exception
    of the error dialog. *)
Theorem reachable_session_is_sound (spawn : list string -> option Exn)
        (apps : list (string * string)) (s : Session) :
  reachable spawn apps s ->
  focus_in_range s /\ visible_from_index s /\ rows_in_sync s
  /\ forall i,
       result_of (handle spawn i s) = Ok tt
       \/ (i = KeyEnter /\ result_of (handle spawn i s) = Raise dialog_error).
Proof.
  intros H.
  destruct (reachable_invariants spawn apps s H) as (Hf & Hv & Hs & _).
  split; [exact Hf|]. split; [exact Hv|]. split; [exact Hs|].
  intros i. now apply handle_result.
Qed.

Lemma reachable_session_is_sound_witness :
  reachable cpython_spawn sample_apps sample_editor
  /\ focus_in_range sample_editor
  /\ result_of (handle cpython_spawn KeyUp sample_editor) = Ok tt.
Proof.
  assert (H : reachable cpython_spawn sample_apps sample_editor).
  { unfold sample_editor, sample.
    apply reachable_handle; [apply reachable_init | reflexivity]. }
  split; [exact H|].
  destruct (reachable_session_is_sound cpython_spawn sample_apps sample_editor H)
    as (Hf & _ & _ & Hres).
  split; [exact Hf|].
  destruct (Hres KeyUp) as [Hok | [Hi _]]; [exact Hok | discriminate Hi].
Defined.

(** X7: in every session reached from the scanned index, each visible name
    has a non-empty command in the mapping, so the guard [if cmd] of
    [launch] never skips the spawn. *)
Theorem visible_names_have_commands (spawn : list string -> option Exn)
        (fs : FileSystem) (s : Session) (name : string) :
  reachable spawn (list_apps fs) s ->
  In name (filtered_apps s) ->
  exists cmd, app_dict s !! name = Some cmd /\ cmd <> EmptyString
              /\ Py.truthy (app_dict s !! name) = true.
Proof.
  intros Hr Hin.
  destruct (reachable_lookup_hits spawn fs s name Hr Hin) as (cmd & Hc & Hnz).
  exists cmd. split; [exact Hc|]. split; [exact Hnz|].
  apply truthy_spec. now exists cmd.
Qed.

Lemma visible_names_have_commands_witness :
  exists cmd, app_dict scenario !! "Firefox" = Some cmd /\ cmd <> EmptyString
              /\ Py.truthy (app_dict scenario !! "Firefox") = true.
Proof.
  apply (visible_names_have_commands cpython_spawn scenario_fs scenario "Firefox").
  - apply reachable_init.
  - vm_compute. left. reflexivity.
Defined.

(** X8: on a non-empty visible list of a reachable session, a launch that
    returns normally leaves exactly the session the program started in,
    field for field, and a launch that raises leaves the session it
    started from. *)
Theorem launch_restores_initial_session (spawn : list string -> option Exn)
        (apps : list (string * string)) (s : Session) :
  reachable spawn apps s ->
  filtered_apps s <> [] ->
  (result_of (launch spawn s) = Ok tt -> state_of (launch spawn s) = init apps)
  /\ (result_of (launch spawn s) <> Ok tt -> state_of (launch spawn s) = s).
Proof.
  intros Hr Hne.
  destruct (reachable_invariants spawn apps s Hr) as (Hf & Hv & _ & Hn & Hd).
  destruct (getitem_in_range _ _ (Hf Hne)) as (name & Hname & _).
  destruct (attempt_result_cases spawn (app_dict s !! name)) as [A | A].
  - rewrite (launch_run spawn s name Hne Hname A).
    unfold result_of, state_of. cbn [fst snd]. split; [|congruence].
    intros _. apply launch_reset_is_init; [exact Hn | exact Hd |].
    exact (sublist_nonempty _ _ Hv Hne).
  - rewrite (launch_stops spawn s name _ Hne Hname A).
    unfold result_of, state_of. cbn [fst snd]. split; [discriminate | reflexivity].
Qed.

Lemma launch_restores_initial_session_witness :
  focus_index (state_of (handle cpython_spawn KeyDown sample)) = 1
  /\ state_of (launch cpython_spawn (state_of (handle cpython_spawn KeyDown sample)))
     = sample.
Proof.
  split; [reflexivity|].
  apply (launch_restores_initial_session cpython_spawn sample_apps
           (state_of (handle cpython_spawn KeyDown sample))).
  - unfold sample. apply reachable_handle; [apply reachable_init | reflexivity].
  - discriminate.
  - reflexivity.
Defined.

(** X9: when the focused name has a non-empty command that the lexer
    splits, the launch calls the spawn primitive exactly once, with the
    sanitized vector.  If the process starts, the launch shows nothing,
    returns normally and performs the reset.  If the call raises, the
    launch ends in the exception of the error dialog: nothing is shown,
    and the session, query and visible names included, is left as it
    was. *)
Theorem launch_spawns_sanitized_command (spawn : list string -> option Exn)
        (s : Session) (name cmd : string) (args : list string) :
  Py.getitem (filtered_apps s) (focus_index s) = Ok name ->
  app_dict s !! name = Some cmd ->
  cmd <> EmptyString ->
  clean_exec_cmd cmd = Ok args ->
  spawned (events_of (launch spawn s)) = [args]
  /\ (spawn args = None ->
      result_of (launch spawn s) = Ok tt
      /\ shown_errors (events_of (launch spawn s)) = []
      /\ search_text (state_of (launch spawn s)) = EmptyString
      /\ filtered_apps (state_of (launch spawn s)) = all_app_names s)
  /\ (spawn args <> None ->
      launch spawn s = (Raise dialog_error, s, [Popen args])).
Proof.
  intros Hname Hcmd Hnz Hclean.
  split; [now apply (launch_spawned spawn s name cmd args)|].
  destruct (getitem_ok _ _ _ Hname) as [Hne _].
  destruct (attempt_spawns spawn cmd args Hnz Hclean) as [E A].
  rewrite <- Hcmd in E, A. split.
  - intros Hs. rewrite Hs in A.
    rewrite (launch_run spawn s name Hne Hname A), E.
    unfold result_of, state_of, events_of. cbn [fst snd].
    rewrite shown_errors_app, shown_errors_app.
    destruct (text_assigned_events_quiet EmptyString s) as [_ ->].
    split; [reflexivity|]. split; [reflexivity|].
    split; [apply launch_reset_text | apply launch_reset_filtered].
  - intros Hs. destruct (spawn args) as [e|]; [|contradiction].
    now rewrite (launch_stops spawn s name _ Hne Hname A), E.
Qed.

Lemma launch_spawns_sanitized_command_witness :
  spawned (events_of (launch cpython_spawn sample)) = [["firefox"]]
  /\ result_of (launch cpython_spawn sample) = Ok tt.
Proof.
  assert (Hnz : "firefox %u" <> EmptyString) by discriminate.
  destruct (launch_spawns_sanitized_command cpython_spawn sample "Firefox"
              "firefox %u" ["firefox"] eq_refl eq_refl Hnz eq_refl)
    as (Hsp & Hok & _).
  split; [exact Hsp|]. exact (proj1 (Hok eq_refl)).
Defined.

(** X10: when the lexer rejects the focused command (an unclosed quote or
    a trailing backslash), the launch spawns nothing and ends in the
    exception of the error dialog: the lexer's message is not shown and
    the session is left as it was, without the reset. *)
Theorem launch_on_malformed_command_raises (spawn : list string -> option Exn)
        (s : Session) (name cmd : string) (e : Exn) :
  Py.getitem (filtered_apps s) (focus_index s) = Ok name ->
  app_dict s !! name = Some cmd ->
  clean_exec_cmd cmd = Raise e ->
  (exn_str e = "No closing quotation" \/ exn_str e = "No escaped character")
  /\ launch spawn s = (Raise dialog_error, s, []).
Proof.
  intros Hname Hcmd Hclean.
  destruct (getitem_ok _ _ _ Hname) as [Hne _].
  split.
  { destruct (clean_exec_cmd_error cmd e Hclean) as [-> | ->]; auto. }
  destruct (attempt_rejected spawn cmd e Hclean) as [E A].
  rewrite <- Hcmd in E, A.
  now rewrite (launch_stops spawn s name _ Hne Hname A), E.
Qed.

Lemma launch_on_malformed_command_raises_witness :
  launch cpython_spawn (init [("Notes", "sh -c 'vi")])
  = (Raise dialog_error, init [("Notes", "sh -c 'vi")], []).
Proof.
  apply (launch_on_malformed_command_raises cpython_spawn
           (init [("Notes", "sh -c 'vi")]) "Notes" "sh -c 'vi"
           (ValueError "No closing quotation") eq_refl eq_refl eq_refl).
Defined.

(** X11: after a change of the search text the focus index is 0 when at
    least one name matches; when none matches the index keeps its old
    value and the layout holds the placeholder row only. *)
Theorem search_change_refocuses (s : Session) :
  (filtered_apps (state_of (on_search_change s)) <> [] ->
   focus_index (state_of (on_search_change s)) = 0)
  /\ (filtered_apps (state_of (on_search_change s)) = [] ->
      focus_index (state_of (on_search_change s)) = focus_index s
      /\ hsplit_children (state_of (on_search_change s)) = [NoAppsRow]).
Proof.
  rewrite on_search_change_run. unfold state_of. cbn [fst snd].
  destruct (refiltered_index s) as [H1 H2].
  split; [exact H1|]. intros H. split; [exact (H2 H)|].
  unfold refiltered at 1. cbn [rows_rebuilt set_hsplit_children hsplit_children].
  rewrite focus_set_filtered. cbn [set_filtered_apps filtered_apps].
  rewrite refiltered_filtered in H. now rewrite H.
Qed.

(** X12: running [on_search_change] a second time on an unchanged search
    text leaves the session exactly as the first run left it. *)
Theorem search_change_is_idempotent (s : Session) :
  state_of (on_search_change (state_of (on_search_change s)))
  = state_of (on_search_change s).
Proof.
  rewrite !on_search_change_run. unfold state_of. cbn [fst snd].
  apply refiltered_idempotent.
Qed.


(** ** Rows and selection *)

Section Rows.

Lemma enumerate_rows_length names : forall k,
  length (enumerate_rows k names) = length names.
Proof.
  induction names as [|x names IH]; intros k; cbn; [reflexivity|].
  now rewrite IH.
Qed.

Lemma enumerate_rows_nth names : forall k i name,
  nth_error names i = Some name ->
  nth_error (enumerate_rows k names) i = Some (AppRow (k + Z.of_nat i) name).
Proof.
  induction names as [|x names IH]; intros k i name H.
  - destruct i; discriminate.
  - destruct i as [|i]; cbn [nth_error enumerate_rows] in *.
    + injection H as ->. now rewrite Z.add_0_r.
    + rewrite (IH (k + 1) i name H). do 2 f_equal. lia.
Qed.

Lemma enumerate_rows_below s names : forall k,
  focus_index s < k ->
  List.filter (is_selected s) (enumerate_rows k names) = [].
Proof.
  induction names as [|x names IH]; intros k H; cbn [enumerate_rows List.filter];
    [reflexivity|].
  cbn [is_selected]. destruct (Z.eqb_spec k (focus_index s)); [lia|].
  apply IH. lia.
Qed.

Lemma enumerate_rows_selected s names : forall k j name,
  nth_error names j = Some name ->
  focus_index s = k + Z.of_nat j ->
  List.filter (is_selected s) (enumerate_rows k names) = [AppRow (focus_index s) name].
Proof.
  induction names as [|x names IH]; intros k j name H Hf.
  - destruct j; discriminate.
  - cbn [enumerate_rows List.filter is_selected].
    destruct j as [|j]; cbn [nth_error] in H.
    + injection H as ->. rewrite Z.add_0_r in Hf. subst k.
      rewrite Z.eqb_refl. f_equal. apply enumerate_rows_below. lia.
    + destruct (Z.eqb_spec k (focus_index s)); [lia|].
      apply (IH (k + 1) j name H). lia.
Qed.

Lemma getitem_nth {A} (l : list A) i :
  0 <= i < Py.len l ->
  exists x, Py.getitem l i = Ok x /\ nth_error l (Z.to_nat i) = Some x.
Proof.
  intros H. unfold Py.getitem.
  destruct (Z.ltb_spec i 0); [lia|].
  destruct (Z.ltb_spec i 0); [lia|].
  destruct (Z.leb_spec (Py.len l) i); [lia|]. cbn [orb].
  destruct (nth_error l (Z.to_nat i)) as [x|] eqn:E.
  - now exists x.
  - apply nth_error_None in E. unfold Py.len in H. lia.
Qed.

End Rows.

(** X13: [build_rows] changes nothing and raises nothing; it returns the
    single placeholder row when no name is visible, and otherwise one row
    per visible name, in order, the row at position i carrying the index i
    and the i-th name. *)
Theorem build_rows_lists_visible_names (s : Session) :
  exists r,
    build_rows s = (Ok r, s, [])
    /\ (filtered_apps s = [] -> r = [NoAppsRow])
    /\ (filtered_apps s <> [] ->
        length r = length (filtered_apps s)
        /\ forall i name,
             nth_error (filtered_apps s) i = Some name ->
             nth_error r i = Some (AppRow (Z.of_nat i) name)).
Proof.
  exists (rows_for (filtered_apps s)). split; [apply build_rows_run|].
  split.
  - intros ->. reflexivity.
  - intros H. destruct (filtered_apps s) as [|x l] eqn:E; [contradiction|].
    cbn [rows_for]. split; [apply enumerate_rows_length|].
    intros i name Hn. now rewrite (enumerate_rows_nth _ 0 i name Hn).
Qed.

(** X14: when the layout holds the rows of a non-empty visible list and
    the focus index is in range, exactly one row of the layout is drawn as
    selected: the row of the focused name, the one [launch] would start;
    with no visible name, no row is drawn as selected. *)
Theorem exactly_one_row_is_selected (s : Session) :
  rows_in_sync s ->
  focus_in_range s ->
  (filtered_apps s <> [] ->
   exists name,
     Py.getitem (filtered_apps s) (focus_index s) = Ok name
     /\ List.filter (is_selected s) (hsplit_children s)
        = [AppRow (focus_index s) name])
  /\ (filtered_apps s = [] ->
      List.filter (is_selected s) (hsplit_children s) = []).
Proof.
  intros [Hr Hh] Hf. rewrite Hh, Hr. split.
  - intros Hne. pose proof (Hf Hne) as Hb.
    destruct (getitem_nth _ _ Hb) as (name & Hg & Hn).
    exists name. split; [exact Hg|].
    destruct (filtered_apps s) as [|x l]; [contradiction|].
    cbn [rows_for]. apply (enumerate_rows_selected s _ 0 _ name Hn). lia.
  - intros ->. reflexivity.
Qed.

Lemma exactly_one_row_is_selected_witness :
  List.filter (is_selected sample_last) (hsplit_children sample_last)
  = [AppRow 2 "Editor"].
Proof.
  assert (Hs : rows_in_sync sample_last) by (split; reflexivity).
  assert (Hf : focus_in_range sample_last)
    by (intros _; change (0 <= 2 < 3); lia).
  destruct (exactly_one_row_is_selected sample_last Hs Hf) as [H _].
  destruct (H ltac:(discriminate)) as (name & Hg & Hsel).
  injection Hg as <-. exact Hsel.
Defined.

(** ** Composition of moves *)

Section Moves.

Lemma times_move_up k : forall s,
  filtered_apps s <> [] ->
  0 <= focus_index s < Py.len (filtered_apps s) ->
  result_of (times k move_up s) = Ok tt
  /\ filtered_apps (state_of (times k move_up s)) = filtered_apps s
  /\ focus_index (state_of (times k move_up s))
     = (focus_index s - Z.of_nat k) mod Py.len (filtered_apps s).
Proof.
  induction k as [|k IH]; intros s Hne Hr.
  - cbn. rewrite Z.sub_0_r, Z.mod_small by exact Hr. auto.
  - cbn [times]. unfold bind. rewrite (move_up_run s Hne).
    assert (Hne' : filtered_apps (moved (-1) s) <> [])
      by now rewrite moved_filtered.
    assert (Hr' : 0 <= focus_index (moved (-1) s)
                  < Py.len (filtered_apps (moved (-1) s))).
    { rewrite moved_filtered, (moved_index _ _ Hne).
      apply Z.mod_pos_bound. lia. }
    destruct (IH (moved (-1) s) Hne' Hr') as (Hres & Hf & Hi).
    destruct (times k move_up (moved (-1) s)) as [[r s'] ev].
    unfold result_of, state_of in *. cbn [fst snd] in *.
    rewrite Hres. repeat split.
    + now rewrite Hf, moved_filtered.
    + rewrite Hi, moved_filtered, (moved_index _ _ Hne).
      rewrite Zminus_mod_idemp_l. f_equal. lia.
Qed.

Lemma moved_moved d1 d2 s :
  filtered_apps s <> [] ->
  focus_index (moved d2 (moved d1 s))
  = (focus_index s + d1 + d2) mod Py.len (filtered_apps s).
Proof.
  intros Hne.
  rewrite moved_index by now rewrite moved_filtered.
  rewrite moved_filtered, (moved_index _ _ Hne).
  apply len_nonempty in Hne. now rewrite Z.add_mod_idemp_l by lia.
Qed.

End Moves.

(** X15: with N > 0 visible names and the focus index i in [0, N-1], k
    moves down end on (i + k) mod N and k moves up on (i - k) mod N, for
    every k; a move up undoes a move down and a move down undoes a move
    up. *)
Theorem moves_compose (s : Session) (k : nat) :
  filtered_apps s <> [] ->
  0 <= focus_index s < Py.len (filtered_apps s) ->
  focus_index (state_of (times k move_down s))
  = (focus_index s + Z.of_nat k) mod Py.len (filtered_apps s)
  /\ focus_index (state_of (times k move_up s))
     = (focus_index s - Z.of_nat k) mod Py.len (filtered_apps s)
  /\ focus_index (state_of ((move_down ;; move_up) s)) = focus_index s
  /\ focus_index (state_of ((move_up ;; move_down) s)) = focus_index s.
Proof.
  intros Hne Hr.
  destruct (times_move_down k s Hne Hr) as (_ & _ & Hd).
  destruct (times_move_up k s Hne Hr) as (_ & _ & Hu).
  split; [exact Hd|]. split; [exact Hu|].
  assert (Hne1 : forall d, filtered_apps (moved d s) <> [])
    by (intros d; now rewrite moved_filtered).
  unfold bind.
  rewrite (move_down_run s Hne), (move_up_run s Hne).
  rewrite (move_up_run _ (Hne1 1)), (move_down_run _ (Hne1 (-1))).
  unfold state_of. cbn [fst snd].
  rewrite !(moved_moved _ _ _ Hne).
  split; (replace (focus_index s + _ + _) with (focus_index s) by lia;
          apply Z.mod_small, Hr).
Qed.

Lemma moves_compose_witness :
  focus_index (state_of (times 5 move_down sample)) = 2
  /\ focus_index (state_of (times 5 move_up sample)) = 1.
Proof.
  assert (Hne : filtered_apps sample <> []) by discriminate.
  assert (Hr : 0 <= focus_index sample < Py.len (filtered_apps sample))
    by (change (0 <= 0 < 3); lia).
  destruct (moves_compose sample 5 Hne Hr) as (Hd & Hu & _).
  split; [exact Hd | exact Hu].
Defined.


(** ** The lexer on commands without quotes *)

Section PlainCommands.

Import Shlex.

Lemma app1_nonempty tok c : app1 tok c <> EmptyString.
Proof. destruct tok; discriminate. Qed.

Lemma nonempty_eqb tok : tok <> EmptyString -> String.eqb tok EmptyString = false.
Proof. destruct tok; [contradiction | reflexivity]. Qed.

Lemma plain_cons c t :
  plain (String c t) = true ->
  quotes c = false /\ escape c = false /\ plain t = true.
Proof.
  unfold plain. cbn [str_all]. rewrite !andb_true_iff, !negb_true_iff. tauto.
Qed.

Lemma words_from_nonempty tok s :
  tok <> EmptyString ->
  words_from tok EmptyString = [tok]
  /\ forall c, whitespace c = true ->
               words_from tok (String c s) = tok :: words_from EmptyString s.
Proof.
  intros H. destruct tok; [contradiction|]. split; [reflexivity|].
  intros c Hc. cbn [words_from]. now rewrite Hc.
Qed.

Lemma read_loop_word instream : forall tok es,
  plain instream = true ->
  tok <> EmptyString ->
  exists b,
    read_loop instream Word tok false es = Ok b
    /\ quoted b = false
    /\ token b <> EmptyString
    /\ plain (rest b) = true
    /\ (state b = Blank \/ (state b = Eof /\ rest b = EmptyString))
    /\ words_from tok instream = token b :: words_from EmptyString (rest b).
Proof.
  induction instream as [|c t IH]; intros tok es Hp Hne.
  - eexists. split; [reflexivity|]. cbn [quoted token rest state].
    destruct (words_from_nonempty tok EmptyString Hne) as [Hw _].
    repeat split; auto.
  - apply plain_cons in Hp as (Hq & He & Hp). cbn [read_loop].
    destruct (whitespace c) eqn:Hw.
    + rewrite (nonempty_eqb tok Hne). cbn [negb orb].
      eexists. split; [reflexivity|]. cbn [quoted token rest state].
      destruct (words_from_nonempty tok t Hne) as [_ Hc].
      repeat split; auto.
    + rewrite Hq, He.
      destruct (IH (app1 tok c) es Hp (app1_nonempty tok c))
        as (b & Hb & Hrest).
      exists b. split; [exact Hb|]. cbn [words_from]. rewrite Hw. exact Hrest.
Qed.

Lemma read_loop_blank instream : forall es,
  plain instream = true ->
  exists b,
    read_loop instream Blank EmptyString false es = Ok b
    /\ quoted b = false
    /\ ((token b = EmptyString /\ words_from EmptyString instream = [])
        \/ (token b <> EmptyString
            /\ plain (rest b) = true
            /\ (state b = Blank \/ (state b = Eof /\ rest b = EmptyString))
            /\ words_from EmptyString instream
               = token b :: words_from EmptyString (rest b))).
Proof.
  induction instream as [|c t IH]; intros es Hp.
  - eexists. split; [reflexivity|]. cbn [quoted token]. auto.
  - apply plain_cons in Hp as (Hq & He & Hp). cbn [read_loop words_from].
    destruct (whitespace c) eqn:Hw.
    + cbn [String.eqb negb orb]. exact (IH es Hp).
    + rewrite Hq, He.
      assert (Hne : String c EmptyString <> EmptyString) by discriminate.
      destruct (read_loop_word t (String c EmptyString) es Hp Hne)
        as (b & Hb & Hq' & Hrest).
      exists b. split; [exact Hb|]. split; [exact Hq'|]. right. exact Hrest.
Qed.

Lemma tokens_plain fuel : forall instream st,
  (String.length instream < fuel)%nat ->
  plain instream = true ->
  st = Blank \/ (st = Eof /\ instream = EmptyString) ->
  tokens fuel instream st = Some (Ok (words_from EmptyString instream)).
Proof.
  induction fuel as [|fuel IH]; intros instream st Hlen Hp Hst; [lia|].
  cbn [tokens].
  destruct Hst as [-> | [-> ->]]; [|reflexivity].
  destruct (read_loop_blank instream Blank Hp) as (b & Hb & Hq & Hcase).
  destruct (read_token instream Blank) as [[[r more] st']|e] eqn:E;
    unfold read_token in E; rewrite Hb, Hq in E; [|discriminate].
  destruct Hcase as [[Ht Hw] | (Ht & Hp' & Hst' & Hw)].
  - rewrite Ht in E. cbn in E. injection E as <- _ _. now rewrite Hw.
  - rewrite (nonempty_eqb _ Ht) in E. cbn [negb andb] in E.
    injection E as <- <- <-.
    assert (Hc : read_token instream Blank = Ok (Some (token b), rest b, state b)).
    { unfold read_token. rewrite Hb, Hq, (nonempty_eqb _ Ht). reflexivity. }
    apply read_token_consumes in Hc.
    rewrite (IH (rest b) (state b) ltac:(lia) Hp' Hst'). now rewrite Hw.
Qed.

Lemma str_all_app1 p tok c :
  str_all p tok = true -> p c = true -> str_all p (app1 tok c) = true.
Proof.
  intros Ht Hc. unfold app1. induction tok as [|a tok IH].
  - rewrite append_nil_l. cbn [str_all]. now rewrite Hc.
  - rewrite append_cons. cbn [str_all] in *.
    apply andb_true_iff in Ht as [Ha Ht]. now rewrite Ha, IH.
Qed.

Lemma words_from_clean s : forall cur,
  str_all (fun c => negb (whitespace c)) cur = true ->
  Forall (fun w => w <> EmptyString
                   /\ str_all (fun c => negb (whitespace c)) w = true)
         (words_from cur s).
Proof.
  induction s as [|c t IH]; intros cur Hcur; cbn [words_from].
  - destruct cur; constructor; [|constructor]. split; [discriminate | exact Hcur].
  - destruct (whitespace c) eqn:Hw.
    + destruct cur.
      * now apply IH.
      * constructor; [split; [discriminate | exact Hcur] | now apply IH].
    + apply IH. apply str_all_app1; [exact Hcur | now rewrite Hw].
Qed.

Lemma read_loop_single_quoted body : forall tok more q es,
  str_all (fun c => negb (c =? "'")%char) body = true ->
  read_loop (body +:+ String "'" more) (Quote "'") tok q es
  = read_loop more Word (tok +:+ body) true es.
Proof.
  induction body as [|c body IH]; intros tok more q es H.
  - rewrite append_nil_l, append_empty_r. reflexivity.
  - cbn [str_all] in H. apply andb_true_iff in H as [Hc H].
    apply negb_true_iff in Hc.
    rewrite append_cons. cbn [read_loop]. rewrite Hc.
    replace (escape c && escapedquotes "'") with false
      by (rewrite andb_comm; reflexivity).
    rewrite (IH _ _ _ _ H). unfold app1. rewrite append_assoc. reflexivity.
Qed.

End PlainCommands.

(** X16: a command that holds no quote and no backslash is never rejected;
    its tokens are its maximal runs of characters other than blank, tab,
    carriage return and line feed, in order, each of them non-empty and
    free of those characters, and the sanitized vector is those runs
    without the ones that begin with a percent sign. *)
Theorem plain_command_is_cut_at_blanks (cmd : string) :
  plain cmd = true ->
  Shlex.split cmd = Ok (blank_separated cmd)
  /\ clean_exec_cmd cmd
     = Ok (List.filter (fun arg => negb (Py.str_startswith "%" arg))
                       (blank_separated cmd))
  /\ Forall (fun w => w <> EmptyString
                      /\ str_all (fun c => negb (Shlex.whitespace c)) w = true)
            (blank_separated cmd).
Proof.
  intros Hp.
  assert (Hs : Shlex.split cmd = Ok (blank_separated cmd)).
  { pose proof (split_tokens cmd) as T.
    rewrite (tokens_plain _ cmd Shlex.Blank) in T by (auto; lia).
    now injection T as <-. }
  split; [exact Hs|]. split.
  - unfold clean_exec_cmd. now rewrite Hs.
  - now apply words_from_clean.
Qed.

Lemma plain_command_is_cut_at_blanks_witness :
  clean_exec_cmd "  gimp   --new-instance %U " = Ok ["gimp"; "--new-instance"].
Proof.
  destruct (plain_command_is_cut_at_blanks "  gimp   --new-instance %U " eq_refl)
    as (_ & H & _).
  exact H.
Defined.

(** X17: a text without single quote, written between single quotes, is
    one token, taken literally with its blanks and backslashes; the
    quoting does not shield it from the field-code test: the sanitized
    vector is empty when the text begins with a percent sign. *)
Theorem single_quoted_command_is_one_token (body : string) :
  str_all (fun c => negb (c =? "'")%char) body = true ->
  Shlex.split (String "'" (body +:+ "'")) = Ok [body]
  /\ clean_exec_cmd (String "'" (body +:+ "'"))
     = Ok (if Py.str_startswith "%" body then [] else [body]).
Proof.
  intros H.
  assert (Hs : Shlex.split (String "'" (body +:+ "'")) = Ok [body]).
  { pose proof (split_tokens (String "'" (body +:+ "'"))) as T.
    cbn [String.length Shlex.tokens] in T. unfold Shlex.read_token in T.
    cbn [Shlex.read_loop] in T.
    change (Shlex.whitespace "'") with false in T.
    change (Shlex.escape "'") with false in T.
    change (Shlex.quotes "'") with true in T. cbn iota in T.
    rewrite (read_loop_single_quoted body EmptyString EmptyString false Shlex.Blank H) in T.
    rewrite append_nil_l in T.
    cbn [Shlex.read_loop Shlex.quoted Shlex.token Shlex.rest Shlex.state negb andb] in T.
    now injection T as <-. }
  split; [exact Hs|].
  unfold clean_exec_cmd. rewrite Hs. cbn [List.filter].
  now destruct (Py.str_startswith "%" body).
Qed.

Lemma single_quoted_command_is_one_token_witness :
  Shlex.split "'my app\ %U'" = Ok ["my app\ %U"]
  /\ clean_exec_cmd "'%U'" = Ok [].
Proof.
  destruct (single_quoted_command_is_one_token "my app\ %U" eq_refl) as [H1 _].
  destruct (single_quoted_command_is_one_token "%U" eq_refl) as [_ H2].
  split; [exact H1 | exact H2].
Defined.


(** ** The query is read without its case and its padding *)

Section QueryNormalisation.

Lemma isspace_lower_char c : Py.isspace (Py.lower_char c) = Py.isspace c.
Proof.
  destruct c as [b0 b1 b2 b3 b4 b5 b6 b7].
  destruct b0, b1, b2, b3, b4, b5, b6, b7; reflexivity.
Qed.

Lemma lower_lstrip s : Py.str_lower (Py.str_lstrip s) = Py.str_lstrip (Py.str_lower s).
Proof.
  induction s as [|c t IH]; [reflexivity|].
  cbn [Py.str_lstrip Py.str_lower]. rewrite isspace_lower_char.
  destruct (Py.isspace c); [exact IH | reflexivity].
Qed.

Lemma lower_rstrip s : Py.str_lower (Py.str_rstrip s) = Py.str_rstrip (Py.str_lower s).
Proof.
  induction s as [|c t IH]; [reflexivity|].
  cbn [Py.str_rstrip Py.str_lower]. rewrite <- IH, isspace_lower_char.
  destruct (Py.str_rstrip t) as [|a t']; cbn [Py.str_lower].
  - destruct (Py.isspace c); reflexivity.
  - reflexivity.
Qed.

Lemma lower_strip s : Py.str_lower (Py.str_strip s) = Py.str_strip (Py.str_lower s).
Proof. unfold Py.str_strip. now rewrite lower_rstrip, lower_lstrip. Qed.

Lemma rstrip_blank pad : str_all Py.isspace pad = true -> Py.str_rstrip pad = EmptyString.
Proof.
  induction pad as [|c t IH]; [reflexivity|].
  cbn [str_all Py.str_rstrip]. intros H. apply andb_true_iff in H as [Hc Ht].
  now rewrite (IH Ht), Hc.
Qed.

Lemma rstrip_app_blank x pad :
  str_all Py.isspace pad = true -> Py.str_rstrip (x +:+ pad) = Py.str_rstrip x.
Proof.
  intros H. induction x as [|c t IH].
  - rewrite append_nil_l. now apply rstrip_blank.
  - rewrite append_cons. cbn [Py.str_rstrip]. now rewrite IH.
Qed.

Lemma lstrip_blank_app pad x :
  str_all Py.isspace pad = true -> Py.str_lstrip (pad +:+ x) = Py.str_lstrip x.
Proof.
  induction pad as [|c t IH]; [reflexivity|].
  cbn [str_all]. intros H. apply andb_true_iff in H as [Hc Ht].
  rewrite append_cons. cbn [Py.str_lstrip]. rewrite Hc. now apply IH.
Qed.

Lemma strip_app_blank q pad :
  str_all Py.isspace pad = true -> Py.str_strip (q +:+ pad) = Py.str_strip q.
Proof.
  intros H. unfold Py.str_strip. induction q as [|c t IH].
  - rewrite append_nil_l.
    rewrite <- (append_empty_r pad), (lstrip_blank_app pad EmptyString H).
    reflexivity.
  - rewrite append_cons. cbn [Py.str_lstrip].
    destruct (Py.isspace c); [exact IH|].
    rewrite <- append_cons. now apply rstrip_app_blank.
Qed.

Lemma strip_padded pad1 q pad2 :
  str_all Py.isspace pad1 = true ->
  str_all Py.isspace pad2 = true ->
  Py.str_strip (pad1 +:+ q +:+ pad2) = Py.str_strip q.
Proof.
  intros H1 H2. rewrite <- (strip_app_blank q pad2 H2).
  unfold Py.str_strip. now rewrite lstrip_blank_app.
Qed.

Lemma refiltered_same_text s q1 q2 :
  Py.str_lower (Py.str_strip q1) = Py.str_lower (Py.str_strip q2) ->
  filtered_apps (state_of (on_search_change (set_search_text q1 s)))
  = filtered_apps (state_of (on_search_change (set_search_text q2 s))).
Proof.
  intros H. rewrite !on_search_change_run. unfold state_of. cbn [fst snd].
  rewrite !refiltered_filtered. cbn [set_search_text search_text all_app_names].
  unfold matches. now rewrite H.
Qed.

End QueryNormalisation.

(** X18: the case of the search text does not matter: two texts with the
    same lower-cased form leave the same visible names. *)
Theorem search_ignores_case (s : Session) (q1 q2 : string) :
  Py.str_lower q1 = Py.str_lower q2 ->
  filtered_apps (state_of (on_search_change (set_search_text q1 s)))
  = filtered_apps (state_of (on_search_change (set_search_text q2 s))).
Proof.
  intros H. apply refiltered_same_text. now rewrite !lower_strip, H.
Qed.

Lemma search_ignores_case_witness :
  filtered_apps (state_of (on_search_change (set_search_text "fIrE" sample)))
  = ["Firefox"].
Proof.
  rewrite (search_ignores_case sample "fIrE" "fire" eq_refl). reflexivity.
Defined.

(** X19: white space around the search text does not matter: a text
    padded on both sides with white space leaves the same visible names as
    the text itself. *)
Theorem search_ignores_padding (s : Session) (pad1 q pad2 : string) :
  str_all Py.isspace pad1 = true ->
  str_all Py.isspace pad2 = true ->
  filtered_apps (state_of (on_search_change (set_search_text (pad1 +:+ q +:+ pad2) s)))
  = filtered_apps (state_of (on_search_change (set_search_text q s))).
Proof.
  intros H1 H2. apply refiltered_same_text. now rewrite strip_padded.
Qed.

Lemma search_ignores_padding_witness :
  filtered_apps (state_of (on_search_change (set_search_text "  vl " sample)))
  = ["VLC"].
Proof.
  change "  vl " with ("  " +:+ "vl" +:+ " ").
  rewrite (search_ignores_padding sample "  " "vl" " " eq_refl eq_refl).
  reflexivity.
Defined.


(** ** Narrowing the list *)

Section Narrowing.

Lemma rstrip_prefix u : exists z, u = Py.str_rstrip u +:+ z.
Proof.
  induction u as [|c t [z IH]]; [now exists EmptyString|].
  cbn [Py.str_rstrip]. destruct (Py.str_rstrip t) as [|a r] eqn:E.
  - destruct (Py.isspace c).
    + now exists (String c t).
    + exists t. now rewrite append_cons, append_nil_l.
  - exists z. rewrite append_cons. now rewrite <- IH.
Qed.

Lemma lstrip_suffix u : exists p, u = p +:+ Py.str_lstrip u.
Proof.
  induction u as [|c t [p IH]]; [now exists EmptyString|].
  cbn [Py.str_lstrip]. destruct (Py.isspace c).
  - exists (String c p). rewrite append_cons. now rewrite <- IH.
  - now exists EmptyString.
Qed.

Lemma strip_substring u : substring (Py.str_strip u) u.
Proof.
  unfold substring, Py.str_strip.
  destruct (lstrip_suffix u) as [p Hp].
  destruct (rstrip_prefix (Py.str_lstrip u)) as [z Hz].
  exists p, z. now rewrite <- Hz.
Qed.

Lemma lower_app a b : Py.str_lower (a +:+ b) = Py.str_lower a +:+ Py.str_lower b.
Proof.
  induction a as [|c a IH]; [reflexivity|].
  rewrite append_cons. cbn [Py.str_lower]. rewrite append_cons. now rewrite IH.
Qed.

Lemma substring_lower q x : substring q x -> substring (Py.str_lower q) (Py.str_lower x).
Proof.
  intros (pre & post & ->). exists (Py.str_lower pre), (Py.str_lower post).
  now rewrite !lower_app.
Qed.

Lemma substring_trans a b c : substring a b -> substring b c -> substring a c.
Proof.
  intros (p1 & s1 & ->) (p2 & s2 & ->).
  exists (p2 +:+ p1), (s1 +:+ s2). now rewrite !append_assoc.
Qed.

Lemma rstrip_app_prefix u x :
  exists z, Py.str_rstrip (u +:+ x) = Py.str_rstrip u +:+ z.
Proof.
  induction u as [|c t [z IH]].
  - exists (Py.str_rstrip x). reflexivity.
  - rewrite append_cons. cbn [Py.str_rstrip]. rewrite IH.
    destruct (Py.str_rstrip t) as [|a r].
    + rewrite append_nil_l. destruct z as [|b z].
      * exists EmptyString. now rewrite append_empty_r.
      * destruct (Py.isspace c).
        -- now exists (String c (String b z)).
        -- exists (String b z). now rewrite append_cons, append_nil_l.
    + exists z. rewrite (append_cons a r z). now rewrite (append_cons c).
Qed.

Lemma strip_app_substring q x :
  substring (Py.str_strip q) (Py.str_strip (q +:+ x)).
Proof.
  unfold Py.str_strip. induction q as [|c t IH].
  - exists EmptyString, (Py.str_rstrip (Py.str_lstrip (EmptyString +:+ x))).
    reflexivity.
  - rewrite append_cons. cbn [Py.str_lstrip].
    destruct (Py.isspace c); [exact IH|].
    rewrite <- append_cons.
    destruct (rstrip_app_prefix (String c t) x) as [z Hz].
    exists EmptyString, z. now rewrite Hz.
Qed.

Lemma filter_sublist_impl {A} (f g : A -> bool) (l : list A) :
  (forall a, f a = true -> g a = true) ->
  sublist (List.filter f l) (List.filter g l).
Proof.
  intros H. induction l as [|a l IH]; cbn [List.filter]; [constructor|].
  destruct (f a) eqn:F.
  - rewrite (H a F). now constructor.
  - destruct (g a); [now constructor | exact IH].
Qed.

End Narrowing.

(** X20: for search texts and display names of code points below 256, the
    range of this model, where [str.lower] works character by character,
    typing further characters at the end of the search text only narrows
    the list: the visible names for the longer text are, in order, among
    the visible names for the shorter one. *)
Theorem longer_query_narrows (s : Session) (q more : string) :
  sublist
    (filtered_apps (state_of (on_search_change (set_search_text (q +:+ more) s))))
    (filtered_apps (state_of (on_search_change (set_search_text q s)))).
Proof.
  rewrite !on_search_change_run. unfold state_of. cbn [fst snd].
  rewrite !refiltered_filtered. cbn [set_search_text search_text all_app_names].
  apply filter_sublist_impl. intros a. unfold matches.
  rewrite !str_contains_spec. apply substring_trans.
  apply substring_lower, strip_app_substring.
Qed.

(** X21: a display name of the index typed in full as the search text is
    always among the visible names. *)
Theorem full_name_is_found (s : Session) (name : string) :
  In name (all_app_names s) ->
  In name (filtered_apps (state_of (on_search_change (set_search_text name s)))).
Proof.
  intros H. rewrite on_search_change_run. unfold state_of. cbn [fst snd].
  rewrite refiltered_filtered. cbn [set_search_text search_text all_app_names].
  apply filter_In. split; [exact H|]. unfold matches.
  apply str_contains_spec, substring_lower, strip_substring.
Qed.

Lemma full_name_is_found_witness :
  In "VLC" (filtered_apps (state_of (on_search_change (set_search_text "VLC" sample)))).
Proof.
  apply (full_name_is_found sample "VLC"). right; left. reflexivity.
Defined.

(** X22: pressing Enter right after a change of the search text starts
    the first matching name of the index: the focused name is the head of
    the visible list, and when its command is non-empty and splits, the
    spawn primitive is called once with that command's sanitized
    vector. *)
Theorem enter_after_search_starts_first_match (spawn : list string -> option Exn)
        (s : Session) (name cmd : string) (others args : list string) :
  filtered_apps (state_of (on_search_change s)) = name :: others ->
  app_dict s !! name = Some cmd ->
  cmd <> EmptyString ->
  clean_exec_cmd cmd = Ok args ->
  Py.getitem (filtered_apps (state_of (on_search_change s)))
             (focus_index (state_of (on_search_change s))) = Ok name
  /\ spawned (events_of (launch spawn (state_of (on_search_change s)))) = [args].
Proof.
  intros Hf Hcmd Hnz Hclean.
  assert (Hne : filtered_apps (state_of (on_search_change s)) <> [])
    by (rewrite Hf; discriminate).
  pose proof (search_change_refocus_zero s Hne) as Hz.
  assert (Hname : Py.getitem (filtered_apps (state_of (on_search_change s)))
                             (focus_index (state_of (on_search_change s))) = Ok name).
  { rewrite Hz, Hf. reflexivity. }
  split; [exact Hname|].
  assert (Hd : app_dict (state_of (on_search_change s)) = app_dict s).
  { rewrite on_search_change_run. unfold state_of. cbn [fst snd].
    apply refiltered_dict. }
  apply (launch_spawned spawn _ name cmd args Hname); [|exact Hnz | exact Hclean].
  now rewrite Hd.
Qed.

Lemma enter_after_search_starts_first_match_witness :
  spawned (events_of (launch cpython_spawn
                        (state_of (on_search_change (set_search_text "l" sample)))))
  = [["vlc"]].
Proof.
  assert (Hnz : "vlc" <> EmptyString) by discriminate.
  destruct (enter_after_search_starts_first_match cpython_spawn
              (set_search_text "l" sample) "VLC" "vlc" [] ["vlc"]
              eq_refl eq_refl Hnz eq_refl) as (_ & H).
  exact H.
Defined.
